(** * FastShop order service: order creation and status updates

    A shallow embedding of [order-service/src/index.js] (the Express handlers
    [POST /api/orders], [PUT /api/orders/:id/status], [GET /api/orders/:id],
    [GET /api/orders]) over an explicit model of the two PostgreSQL tables the
    service creates in [initDatabase] and of the HTTP call it makes to the
    product catalog.

    Conventions of the model.
    - Money is a [DECIMAL(10, 2)] column in both services; it is held as a
      number of cents in [Z]. An order's total, which the handler computes
      as a JavaScript number, may also be stored as [NaN].
    - A JavaScript number is an IEEE 754 double. A number of the request body
      ([item.quantity]) is given by the value of its JSON literal, a
      rational, and read as the double nearest to it; a price is read as the
      double nearest to its two-decimal value. Products and sums are rounded
      to the nearest double, ties to even, and overflow to an infinity. A
      number bound to a statement parameter is sent as the shortest decimal
      that reads back as the same double. The sign of zero is not kept.
    - Identifiers ([product_id], the [:id] route parameter) are integers.
    - [CURRENT_TIMESTAMP] is a parameter [now] of each handler.
    - The handlers run to completion one after the other on the store; a
      handler returns the committed store, the response it sent (if any) and
      the sequence of storage and network operations it performed.
    - A statement fails when a value does not fit the column it goes to, as
      the [CREATE TABLE] statements type it, which is found when its
      parameters are bound, or when a key is taken or missing; losing the
      connection to the order database is not modelled.
    - The catalog is an oracle: it may answer any status and envelope, fail
      to connect, or never answer.

    The later parts add the product service the lookups go to
    ([product-service/src/index.js]), the gateway's health check
    ([api-gateway/index.js]) and the cart and status buttons of the pages
    that call the order service, with the same conventions; rate limiting
    and routing are left out. *)

From Stdlib Require Import ZArith QArith Qround Qabs Qpower Lia Lqa Ascii.
From stdpp Require Import base option list gmap strings pretty sorting.

Local Open Scope Z_scope.

(** ** The tables of [initDatabase] *)

(** A value of a [DECIMAL(10, 2)] column that is written from a JavaScript
    number: a number of cents, or [NaN], which the type accepts. *)
Inductive numeric :=
  | Num (cents : Z)
  | NumNaN.

(** A row of [orders]. *)
Record order_row := OrderRow {
  o_id : Z;
  o_customer_name : string;
  o_customer_email : string;
  o_status : string;
  o_total_amount : numeric;
  o_created_at : Z;
  o_updated_at : Z
}.

(** A row of [order_items]. [i_price] is in cents. *)
Record order_item_row := ItemRow {
  i_id : Z;
  i_order_id : Z;
  i_product_id : Z;
  i_product_name : string;
  i_quantity : Z;
  i_price : Z;
  i_created_at : Z
}.

(** The store: [orders] is addressed by its primary key, [order_items] is a
    heap scanned by [order_id]; each [SERIAL] column (an [INTEGER]) has its
    sequence, holding the next value [nextval] hands out. *)
Record database := Database {
  orders : gmap Z order_row;
  order_items : list order_item_row;
  orders_id_seq : Z;
  order_items_id_seq : Z
}.

Global Instance numeric_eq_dec : EqDecision numeric.
Proof. solve_decision. Defined.
Global Instance order_row_eq_dec : EqDecision order_row.
Proof. solve_decision. Defined.
Global Instance order_item_row_eq_dec : EqDecision order_item_row.
Proof. solve_decision. Defined.

(** ** Column types *)

Fixpoint all_spaces (s : string) : bool :=
  match s with
  | EmptyString => true
  | String c r => bool_decide (c = " "%char) && all_spaces r
  end.

(** Storing into [VARCHAR(n)]: a longer value is an error, unless the excess
    characters are all spaces, which are cut off. *)
Definition varchar (n : nat) (s : string) : option string :=
  if decide (String.length s ≤ n)%nat then Some s
  else if all_spaces (String.substring n (String.length s - n) s)
       then Some (String.substring 0 n s)
       else None.

Definition int4_range (z : Z) : Prop := -2147483648 ≤ z ≤ 2147483647.

Global Instance int4_range_dec z : Decision (int4_range z).
Proof. unfold int4_range. apply _. Defined.

Definition is_integral (q : Q) : bool :=
  (Qnum q mod Zpos (Qden q) =? 0).

(** The decimal text of a number, bound to an [INTEGER] parameter: a number
    with a fractional part, or out of the 32-bit range, is refused. *)
Definition int4_of_number (q : Q) : option Z :=
  if is_integral q
  then (if decide (int4_range (Qfloor q)) then Some (Qfloor q) else None)
  else None.

Definition int4_of_Z (z : Z) : option Z :=
  if decide (int4_range z) then Some z else None.

(** Rounding to the nearest integer, ties away from zero, as [numeric] does. *)
Definition round_half_away (q : Q) : Z :=
  if Qle_bool 0 q then Qfloor (q + (1 # 2))%Q else - Qfloor (- q + (1 # 2))%Q.

Definition numeric_10_2_range (cents : Z) : Prop := Z.abs cents < 10 ^ 10.

Global Instance numeric_10_2_range_dec c : Decision (numeric_10_2_range c).
Proof. unfold numeric_10_2_range. apply _. Defined.

(** A decimal (here in cents) stored into [DECIMAL(10, 2)]: rounded to two
    decimals, refused when 10^8 or more in absolute value. *)
Definition numeric_10_2_of_number (q : Q) : option Z :=
  let c := round_half_away q in
  if decide (numeric_10_2_range c) then Some c else None.

(** A two-decimal amount (in cents) stored into [DECIMAL(10, 2)]. *)
Definition numeric_10_2_of_cents (c : Z) : option Z :=
  if decide (numeric_10_2_range c) then Some c else None.

(** ** JavaScript numbers *)

(** A double: a finite value, held as the rational it is, an infinity, or
    [NaN]. *)
Inductive js_number :=
  | Finite (q : Q)
  | PosInf
  | NegInf
  | NaN.

Definition pow2 (e : Z) : Q := (2 ^ e)%Q.
Definition pow10 (e : Z) : Q := (10 ^ e)%Q.

(** The exponent [e] with [2^e ≤ |q| < 2^(e+1)], for [q] other than 0. *)
Definition ilog2 (q : Q) : Z :=
  let e0 := Z.log2 (Z.abs (Qnum q)) - Z.log2 (Zpos (Qden q)) in
  if Qle_bool (pow2 e0) (Qabs q) then e0 else e0 - 1.

Definition round_half_even (q : Q) : Z :=
  let f := Qfloor q in
  match (q - inject_Z f ?= 1 # 2)%Q with
  | Lt => f
  | Gt => f + 1
  | Eq => if Z.even f then f else f + 1
  end.

Definition infinity_of (q : Q) : js_number :=
  if Qle_bool 0 q then PosInf else NegInf.

(** The double nearest to a rational, ties to even: 53 significant bits,
    the smallest spacing 2^-1074, an infinity from 2^1024 on. *)
Definition RN (x : Q) : js_number :=
  let q := Qred x in
  if Qeq_bool q 0 then Finite 0
  else
    let e := ilog2 q in
    if 1024 <=? e then infinity_of q
    else
      let u := Z.max (e - 52) (-1074) in
      let r := (inject_Z (round_half_even (q / pow2 u)) * pow2 u)%Q in
      if Qle_bool (pow2 1024) (Qabs r) then infinity_of q else Finite (Qred r).

Definition js_sign (x : js_number) : comparison :=
  match x with
  | Finite q => (q ?= 0)%Q
  | PosInf => Gt
  | NegInf => Lt
  | NaN => Eq
  end.

(** [x * y] *)
Definition js_mul (x y : js_number) : js_number :=
  match x, y with
  | NaN, _ | _, NaN => NaN
  | Finite a, Finite b => RN (a * b)
  | _, _ =>
      match js_sign x, js_sign y with
      | Eq, _ | _, Eq => NaN
      | Gt, Gt | Lt, Lt => PosInf
      | _, _ => NegInf
      end
  end.

(** [x + y] *)
Definition js_add (x y : js_number) : js_number :=
  match x, y with
  | NaN, _ | _, NaN => NaN
  | Finite a, Finite b => RN (a + b)
  | PosInf, NegInf | NegInf, PosInf => NaN
  | PosInf, _ | _, PosInf => PosInf
  | NegInf, _ | _, NegInf => NegInf
  end.

(** The exponent [n] with [10^n ≤ |q| < 10^(n+1)], for [q] other than 0. *)
Definition ilog10 (q : Q) : Z :=
  let n0 := (ilog2 q * 30103) / 100000 in
  if Qle_bool (pow10 (n0 + 1)) (Qabs q) then n0 + 1
  else if Qle_bool (pow10 n0) (Qabs q) then n0 else n0 - 1.

Definition rounds_to (d x : Q) : bool :=
  match RN d with
  | Finite r => Qeq_bool r x
  | _ => false
  end.

(** The decimal of [k] significant digits that reads back as the double
    [x], if there is one: the nearer of the two that enclose [x]. *)
Definition digits (x : Q) (k : Z) : option Q :=
  let E := ilog10 x + 1 - k in
  let s := Qfloor (x / pow10 E) in
  let lo := Qred (inject_Z s * pow10 E) in
  let hi := Qred (inject_Z (s + 1) * pow10 E) in
  match rounds_to lo x, rounds_to hi x with
  | true, true =>
      match (x - lo ?= hi - x)%Q with
      | Lt => Some lo
      | Gt => Some hi
      | Eq => if Z.even s then Some lo else Some hi
      end
  | true, false => Some lo
  | false, true => Some hi
  | false, false => None
  end.

Fixpoint shortest (x : Q) (k : Z) (fuel : nat) : Q :=
  match fuel with
  | O => x
  | S fuel =>
      match digits x k with
      | Some d => d
      | None => shortest x (k + 1) fuel
      end
  end.

(** [String(x)] for a finite double, as the value of the decimal written:
    the one with the fewest significant digits (17 always suffice) that
    reads back as [x]. *)
Definition printed (x : Q) : Q :=
  if Qeq_bool x 0 then 0%Q
  else if Qle_bool 0 x then shortest x 1 17 else (- shortest (- x) 1 17)%Q.

(** A JavaScript number bound to an [INTEGER] parameter. *)
Definition int4_of_js (x : js_number) : option Z :=
  match x with
  | Finite q => int4_of_number q
  | _ => None
  end.

(** A JavaScript number (in currency units) stored into [DECIMAL(10, 2)]:
    its decimal is rounded to cents and must stay below 10^8; [NaN] is
    stored as it is, an infinity is refused. *)
Definition numeric_10_2_of_js (x : js_number) : option numeric :=
  match x with
  | Finite q => Num <$> numeric_10_2_of_number (printed q * 100)%Q
  | NaN => Some NumNaN
  | PosInf | NegInf => None
  end.

(** [Number(product.price)]: a two-decimal price as a double. *)
Definition price_number (cents : Z) : js_number := RN (inject_Z cents / 100).

(** The bounds of the error analysis: the relative error 2^-53 of one
    rounding, a bound on the absolute error of a rounding near zero, a
    magnitude far from overflow, and the errors allowed for one line total
    and for one step of the running total. *)
Definition eps : Q := 1 # 9007199254740992.
Definition tau : Q := 1 # 1000000000000000000000000000000.
Definition huge : Q := 100000000000000000000.
Definition line_error : Q := 23 # 1000000000.
Definition step_error : Q := 4 # 100000000.

(** ** The catalog, seen through [axios.get] *)

(** The fields of a catalog product the order service reads. *)
Record product := Product {
  p_id : Z;
  p_name : string;
  p_price : Z
}.

(** The body of a catalog response: [{success, data}]. *)
Record envelope := Envelope {
  success : bool;
  data : option product
}.

(** What the network does with one request to the catalog. *)
Inductive wire :=
  | Reply (status : Z) (body : envelope)
  | ConnectionError
  | NoReply.

(** The catalog as the order service meets it: the [n]-th lookup of a request,
    asking for product [product_id], is answered by [cat n product_id]. *)
Definition catalog := nat → Z → wire.

Inductive axios_error :=
  | BadStatus (status : Z)
  | NetworkError
  | TimeoutExceeded (ms : N).

Inductive settled :=
  | Resolved (body : envelope)
  | Rejected (e : axios_error).

(** [axios.get(url, {timeout})]: resolves on a 2xx status, rejects on any other
    status and on a transport error; with a timeout a missing reply rejects,
    without one (axios's default, [timeout: 0]) the promise never settles,
    which is [None] here. *)
Definition axios_get (timeout : option N) (w : wire) : option settled :=
  match w with
  | Reply status body =>
      if decide (200 ≤ status < 300) then Some (Resolved body)
      else Some (Rejected (BadStatus status))
  | ConnectionError => Some (Rejected NetworkError)
  | NoReply =>
      match timeout with
      | Some ms => Some (Rejected (TimeoutExceeded ms))
      | None => None
      end
  end.

(** ** Requests and responses *)

(** One element of [req.body.items]: [product_id] is the number read, taken
    to be an integer; [quantity] is the value of the JSON number sent, read
    as a double where the handler uses it. *)
Record item := Item {
  product_id : Z;
  quantity : Q
}.

(** The body of [POST /api/orders]; [None] is a field that is absent (or
    [null]). *)
Record create_request := CreateRequest {
  customer_name : option string;
  customer_email : option string;
  items : option (list item)
}.

(** The JSON sent back: [data] of one of three shapes, or [error]. *)
Inductive body :=
  | OrderWithItems (o : order_row) (its : list order_item_row)
  | OrderOnly (o : order_row)
  | OrderList (count : nat) (rows : list (order_row * list order_item_row))
  | Error (msg : string).

Record response := Response {
  status : Z;
  json : body
}.

(** What a handler does to the outside, in order. *)
Inductive event :=
  | Connect
  | Begin
  | HttpGet (product_id : Z)
  | InsertOrder
  | InsertOrderItem
  | Commit
  | Rollback
  | Release
  | UpdateOrder (id : Z)
  | SelectOrder (id : Z)
  | SelectOrders
  | SelectItems (order_id : Z).

(** The result of running a handler: the response (if one is ever sent), the
    committed store afterwards, and the operations performed. *)
Record outcome := Outcome {
  reply : option response;
  store : database;
  trace : list event
}.

(** JavaScript truthiness of a field that is a string when present. *)
Definition truthy (s : option string) : bool :=
  match s with
  | Some s => negb (bool_decide (s = EmptyString))
  | None => false
  end.

(** ** [POST /api/orders] *)

(** An element of [validatedItems]. *)
Record validated_item := ValidatedItem {
  v_product_id : Z;
  v_product_name : string;
  v_quantity : js_number;
  v_price : Z
}.

(** How the loop over [items] ends: it runs through, its [catch] is entered
    for some item, or an [await] never returns. *)
Inductive loop_end :=
  | LoopDone (total : js_number) (validatedItems : list validated_item)
  | LoopCaught (product_id : Z)
  | LoopPending.

(** The loop "Verify products exist and calculate total". [n] counts the
    lookups made so far. A success envelope without [data] makes
    [product.price] throw inside the [try], so it ends in the same [catch].
    [product.price * item.quantity] and [total += itemTotal] are operations
    on doubles. *)
Fixpoint verify_products (cat : catalog) (n : nat) (its : list item)
    (total : js_number) (validatedItems : list validated_item)
    : loop_end * list event :=
  match its with
  | [] => (LoopDone total validatedItems, [])
  | it :: rest =>
      match axios_get None (cat n (product_id it)) with
      | None => (LoopPending, [HttpGet (product_id it)])
      | Some (Rejected _) => (LoopCaught (product_id it), [HttpGet (product_id it)])
      | Some (Resolved productResponse) =>
          if success productResponse then
            match data productResponse with
            | None => (LoopCaught (product_id it), [HttpGet (product_id it)])
            | Some product =>
                let itemTotal :=
                  js_mul (price_number (p_price product)) (RN (quantity it)) in
                let '(e, tr) :=
                  verify_products cat (S n) rest (js_add total itemTotal)
                    (validatedItems ++
                       [ValidatedItem (p_id product) (p_name product)
                                      (RN (quantity it)) (p_price product)]) in
                (e, HttpGet (product_id it) :: tr)
            end
          else
            let '(e, tr) := verify_products cat (S n) rest total validatedItems in
            (e, HttpGet (product_id it) :: tr)
      end
  end.

(** [INSERT INTO orders ... RETURNING *]. A value that does not fit its
    column fails the statement when its parameters are bound and coerced,
    before it runs: no id is drawn then. Otherwise [nextval] draws the id,
    failing once the sequence has passed the largest [INTEGER], and the row
    is inserted; a sequence that was advanced stays so. *)
Definition insert_order (now : Z) (name email : string) (total : js_number)
    (db : database) : database * option order_row :=
  match varchar 255 name, varchar 255 email, numeric_10_2_of_js total with
  | Some name', Some email', Some total' =>
      let id := orders_id_seq db in
      if decide (int4_range id) then
        match orders db !! id with
        | Some _ =>
            (Database (orders db) (order_items db) (id + 1) (order_items_id_seq db),
             None)
        | None =>
            let row := OrderRow id name' email' "pending" total' now now in
            (Database (<[id := row]> (orders db)) (order_items db) (id + 1)
                      (order_items_id_seq db), Some row)
        end
      else (db, None)
  | _, _, _ => (db, None)
  end.

(** [INSERT INTO order_items ...] for one validated item: as for an order,
    the parameters are bound and coerced before an id is drawn; the key
    constraints are checked on the row that is formed. *)
Definition insert_order_item (now order_id : Z) (v : validated_item)
    (db : database) : database * bool :=
  match int4_of_Z order_id, int4_of_Z (v_product_id v), int4_of_js (v_quantity v),
        varchar 255 (v_product_name v), numeric_10_2_of_cents (v_price v) with
  | Some oid, Some pid, Some qty, Some name', Some price' =>
      let id := order_items_id_seq db in
      if decide (int4_range id) then
        if bool_decide ((id ∉ (i_id <$> order_items db))
                        ∧ is_Some (orders db !! oid))
        then (Database (orders db)
                       (order_items db ++ [ItemRow id oid pid name' qty price' now])
                       (orders_id_seq db) (id + 1), true)
        else (Database (orders db) (order_items db) (orders_id_seq db) (id + 1), false)
      else (db, false)
  | _, _, _, _, _ => (db, false)
  end.

(** The loop "Create order items": stops at the first failing statement. *)
Fixpoint insert_order_items (now order_id : Z) (vs : list validated_item)
    (db : database) : database * bool * list event :=
  match vs with
  | [] => (db, true, [])
  | v :: rest =>
      match insert_order_item now order_id v db with
      | (db1, true) =>
          let '(db2, ok, tr) := insert_order_items now order_id rest db1 in
          (db2, ok, InsertOrderItem :: tr)
      | (db1, false) => (db1, false, [InsertOrderItem])
      end
  end.

(** [ROLLBACK]: the tables are those of the last commit; values drawn from a
    sequence are not given back. *)
Definition rollback (committed working : database) : database :=
  Database (orders committed) (order_items committed)
           (orders_id_seq working) (order_items_id_seq working).

(** [SELECT * FROM order_items WHERE order_id = $1]. *)
Definition select_items (order_id : Z) (db : database) : list order_item_row :=
  filter (λ r, i_order_id r = order_id) (order_items db).

Definition failed_to_create : response :=
  Response 500 (Error "Failed to create order").

(** [!items || items.length === 0] *)
Definition no_items (its : option (list item)) : bool :=
  match its with
  | Some l => bool_decide (length l = 0%nat)
  | None => true
  end.

Definition required_fields : response :=
  Response 400 (Error "Customer name, email, and items are required").

Definition product_not_found (product_id : Z) : response :=
  Response 400 (Error ("Product " +:+ pretty product_id +:+ " not found")).

Definition post_orders (cat : catalog) (now : Z) (req : create_request)
    (db : database) : outcome :=
  if negb (truthy (customer_name req)) || negb (truthy (customer_email req))
     || no_items (items req)
  then Outcome (Some required_fields) db [Connect; Release]
  else
    let name := default EmptyString (customer_name req) in
    let email := default EmptyString (customer_email req) in
    let '(e, tr) := verify_products cat 0 (default [] (items req)) (Finite 0) [] in
    match e with
    | LoopPending => Outcome None db (Connect :: Begin :: tr)
    | LoopCaught pid =>
        Outcome (Some (product_not_found pid)) db
          (Connect :: Begin :: tr ++ [Rollback; Release])
    | LoopDone total validatedItems =>
        match insert_order now name email total db with
        | (db1, None) =>
            Outcome (Some failed_to_create) (rollback db db1)
              (Connect :: Begin :: tr ++ [InsertOrder; Rollback; Release])
        | (db1, Some order) =>
            match insert_order_items now (o_id order) validatedItems db1 with
            | (db2, false, tr2) =>
                Outcome (Some failed_to_create) (rollback db db2)
                  (Connect :: Begin :: tr ++ InsertOrder :: tr2 ++ [Rollback; Release])
            | (db2, true, tr2) =>
                Outcome
                  (Some (Response 201
                           (OrderWithItems order (select_items (o_id order) db2))))
                  db2
                  (Connect :: Begin :: tr ++ InsertOrder :: tr2 ++
                     [Commit; SelectItems (o_id order); Release])
            end
        end
    end.

(** ** [PUT /api/orders/:id/status] *)

Definition validStatuses : list string :=
  ["pending"; "processing"; "shipped"; "delivered"; "cancelled"].

(** [Array.prototype.join] *)
Fixpoint join (sep : string) (l : list string) : string :=
  match l with
  | [] => EmptyString
  | x :: r =>
      match r with
      | [] => x
      | _ :: _ => x +:+ sep +:+ join sep r
      end
  end.

(** [UPDATE orders SET status = $1, updated_at = CURRENT_TIMESTAMP
    WHERE id = $2 RETURNING *]: the rows returned, or [None] when the
    statement fails. [$2] is compared with an [INTEGER] column: an id beyond
    the [INTEGER] range, which no row of the table has, makes the statement
    fail. *)
Definition update_status (now id : Z) (s : string) (db : database)
    : database * option (list order_row) :=
  match orders db !! id with
  | None => if decide (int4_range id) then (db, Some []) else (db, None)
  | Some o =>
      match varchar 50 s with
      | None => (db, None)
      | Some s' =>
          let row := OrderRow (o_id o) (o_customer_name o) (o_customer_email o)
                              s' (o_total_amount o) (o_created_at o) now in
          (Database (<[id := row]> (orders db)) (order_items db)
                    (orders_id_seq db) (order_items_id_seq db), Some [row])
      end
  end.

Definition bad_status : response :=
  Response 400 (Error ("Status must be one of: " +:+ join ", " validStatuses)).

Definition order_not_found : response :=
  Response 404 (Error "Order not found").

Definition put_status (now id : Z) (st : option string) (db : database) : outcome :=
  if negb (truthy st) || negb (bool_decide (default EmptyString st ∈ validStatuses))
  then Outcome (Some bad_status) db []
  else
    match update_status now id (default EmptyString st) db with
    | (db', None) =>
        Outcome (Some (Response 500 (Error "Failed to update order status"))) db'
                [UpdateOrder id]
    | (db', Some []) => Outcome (Some order_not_found) db' [UpdateOrder id]
    | (db', Some (row :: _)) =>
        Outcome (Some (Response 200 (OrderOnly row))) db' [UpdateOrder id]
    end.

(** ** The read handlers *)

(** [GET /api/orders/:id]. As in [update_status], the query fails for an id
    beyond the [INTEGER] range, and the [catch] answers 500. *)
Definition get_order (id : Z) (db : database) : outcome :=
  match orders db !! id with
  | None =>
      if decide (int4_range id)
      then Outcome (Some order_not_found) db [SelectOrder id]
      else Outcome (Some (Response 500 (Error "Failed to fetch order"))) db
                   [SelectOrder id]
  | Some o =>
      Outcome (Some (Response 200 (OrderWithItems o (select_items id db)))) db
              [SelectOrder id; SelectItems id]
  end.

(** The [WHERE] clause built from the query string: a filter that is absent
    or empty is not applied. *)
Definition matches (st email : option string) (o : order_row) : bool :=
  (negb (truthy st) || bool_decide (o_status o = default EmptyString st))
  && (negb (truthy email)
      || bool_decide (o_customer_email o = default EmptyString email)).

Definition newer_first (a b : order_row) : Prop := o_created_at b ≤ o_created_at a.

Global Instance newer_first_dec a b : Decision (newer_first a b).
Proof. unfold newer_first. apply _. Defined.

Global Instance newer_first_total : Total newer_first.
Proof. intros a b. unfold newer_first. lia. Qed.

Global Instance newer_first_trans : Transitive newer_first.
Proof. intros a b c. unfold newer_first. lia. Qed.

(** [GET /api/orders]: [ORDER BY created_at DESC]; rows with equal
    timestamps come in the order the sort leaves them. *)
Definition get_orders (st email : option string) (db : database) : outcome :=
  let rows :=
    merge_sort newer_first (filter (λ o, matches st email o = true)
                                   ((map_to_list (orders db)).*2)) in
  Outcome
    (Some (Response 200
             (OrderList (length rows)
                        ((λ o, (o, select_items (o_id o) db)) <$> rows))))
    db
    (SelectOrders :: ((λ o, SelectItems (o_id o)) <$> rows)).

(** ** [initDatabase] *)

Definition empty_database : database := Database ∅ [] 1 1.

Definition monitor_name : string :=
  "4K Monitor 27" +:+ String (ascii_of_nat 34) EmptyString.

(** The sample data inserted when [orders] is empty. *)
Definition init_database (now : Z) (db : database) : database :=
  if bool_decide (size (orders db) = 0%nat) then
    let o := orders_id_seq db in
    let i := order_items_id_seq db in
    Database
      (<[o + 2 := OrderRow (o + 2) "Bob Johnson" "bob.johnson@example.com"
                           "pending" (Num 44998) now now]>
       (<[o + 1 := OrderRow (o + 1) "Jane Smith" "jane.smith@example.com"
                            "shipped" (Num 8999) now now]>
        (<[o := OrderRow o "John Doe" "john.doe@example.com"
                         "delivered" (Num 132998) now now]> (orders db))))
      (order_items db ++
         [ItemRow i o 1 "Laptop Pro 15" 1 129999 now;
          ItemRow (i + 1) o 2 "Wireless Mouse" 1 2999 now;
          ItemRow (i + 2) (o + 1) 4 "Mechanical Keyboard" 1 8999 now;
          ItemRow (i + 3) (o + 2) 3 "USB-C Hub" 2 4999 now;
          ItemRow (i + 4) (o + 2) 5 monitor_name 1 39999 now])
      (o + 3) (i + 5)
  else db.

(** The stores the service can be in: started on empty tables, then any
    sequence of restarts and of writing requests. *)
Inductive reachable : database → Prop :=
  | reach_init now : reachable (init_database now empty_database)
  | reach_restart now db : reachable db → reachable (init_database now db)
  | reach_post cat now req db :
      reachable db → reachable (store (post_orders cat now req db))
  | reach_put now id st db :
      reachable db → reachable (store (put_status now id st db)).

(** ** Specification vocabulary *)

(** The lookup the loop makes for the [n]-th item. *)
Definition lookup (cat : catalog) (n : nat) (it : item) : option settled :=
  axios_get None (cat n (product_id it)).

(** The lookup answers with a success envelope carrying product [p]. *)
Definition resolves_to (cat : catalog) (n : nat) (it : item) (p : product) : Prop :=
  lookup cat n it = Some (Resolved (Envelope true (Some p))).

(** The lookup answers 2xx with an envelope whose [success] is false. *)
Definition declined (cat : catalog) (n : nat) (it : item) : Prop :=
  ∃ d, lookup cat n it = Some (Resolved (Envelope false d)).

(** The lookup rejects: a status outside 2xx, or a transport error. *)
Definition fails (cat : catalog) (n : nat) (it : item) : Prop :=
  ∃ e, lookup cat n it = Some (Rejected e).

(** A product as the catalog's own table types it:
    [id SERIAL], [name VARCHAR(255)], [price DECIMAL(10, 2)]. *)
Definition catalog_product (p : product) : Prop :=
  int4_range (p_id p) ∧ (String.length (p_name p) ≤ 255)%nat
  ∧ numeric_10_2_range (p_price p).

(** The sum of [price × quantity] over item rows, in cents. *)
Definition rows_total (rows : list order_item_row) : Z :=
  foldr (λ r acc, i_price r * i_quantity r + acc) 0 rows.

(** The totals the loop would pass through were its arithmetic exact: the
    sums of [price × quantity], in cents, over the first row, the first two
    rows, and so on, starting from [acc]. *)
Fixpoint running_totals (acc : Z) (rows : list order_item_row) : list Z :=
  match rows with
  | [] => []
  | r :: rest =>
      (acc + i_price r * i_quantity r)
        :: running_totals (acc + i_price r * i_quantity r) rest
  end.

(** Rows for which the double arithmetic of the loop is exact to the cent:
    at most 100000 of them, every line total and every running total at
    most 10^8 (10^10 cents) in absolute value. *)
Definition moderate (rows : list order_item_row) : Prop :=
  Z.of_nat (length rows) ≤ 100000
  ∧ Forall (λ r, Z.abs (i_price r * i_quantity r) ≤ 10 ^ 10) rows
  ∧ Forall (λ t, Z.abs t ≤ 10 ^ 10) (running_totals 0 rows).

Global Instance moderate_dec rows : Decision (moderate rows).
Proof. unfold moderate. apply _. Defined.


(** The line total the loop adds for a validated item. *)
Definition line_total (v : validated_item) : js_number :=
  js_mul (price_number (v_price v)) (v_quantity v).

(** The invariant of the store: keys are the rows' ids and lie below the
    sequence, statuses are known ones, every item row references an order
    and has an id below its sequence. *)
Definition wf_db (db : database) : Prop :=
  (∀ id o, orders db !! id = Some o →
     o_id o = id ∧ id < orders_id_seq db ∧ o_status o ∈ validStatuses)
  ∧ 1 ≤ orders_id_seq db ∧ 1 ≤ order_items_id_seq db
  ∧ Forall (λ r, is_Some (orders db !! i_order_id r)
                 ∧ i_id r < order_items_id_seq db) (order_items db).

(** The lookup lets the loop go on to the next item. *)
Definition passes (cat : catalog) (n : nat) (it : item) : Prop :=
  (∃ p, resolves_to cat n it p) ∨ declined cat n it.

(** The items the loop keeps when it runs through [its], the first of them
    being lookup number [n]: those whose envelope says success. *)
Fixpoint kept (cat : catalog) (n : nat) (its : list item) : list validated_item :=
  match its with
  | [] => []
  | it :: rest =>
      match lookup cat n it with
      | Some (Resolved (Envelope true (Some p))) =>
          ValidatedItem (p_id p) (p_name p) (RN (quantity it)) (p_price p)
            :: kept cat (S n) rest
      | _ => kept cat (S n) rest
      end
  end.

(** Row [r] is validated item [v] as stored for order [order_id] at [now]. *)
Definition row_of (now order_id : Z) (v : validated_item) (r : order_item_row) : Prop :=
  i_order_id r = order_id ∧ i_product_id r = v_product_id v
  ∧ varchar 255 (v_product_name v) = Some (i_product_name r)
  ∧ i_price r = v_price v ∧ numeric_10_2_range (i_price r)
  ∧ int4_of_js (v_quantity v) = Some (i_quantity r)
  ∧ i_created_at r = now.




(** The request passes the handler's own validation. *)
Definition valid_request (req : create_request) : Prop :=
  truthy (customer_name req) = true ∧ truthy (customer_email req) = true
  ∧ no_items (items req) = false.

(** The total the loop reaches for a request whose lookups all pass: the line
    totals of the kept items, added as doubles, left to right from 0. *)
Definition quoted_total (cat : catalog) (its : list item) : js_number :=
  foldl (λ t v, js_add t (line_total v)) (Finite 0) (kept cat 0 its).

(** The store, the response and the order after a creation that committed. *)
Definition created (cat : catalog) (now : Z) (req : create_request) (db : database)
    (o : order_row) (newrows : list order_item_row) : Prop :=
  ∃ total vs tr name' email' t,
    valid_request req
    ∧ verify_products cat 0 (default [] (items req)) (Finite 0) []
      = (LoopDone total vs, tr)
    ∧ varchar 255 (default EmptyString (customer_name req)) = Some name'
    ∧ varchar 255 (default EmptyString (customer_email req)) = Some email'
    ∧ numeric_10_2_of_js total = Some t
    ∧ orders db !! orders_id_seq db = None
    ∧ o = OrderRow (orders_id_seq db) name' email' "pending" t now now
    ∧ Forall2 (row_of now (orders_id_seq db)) vs newrows
    ∧ Forall (λ r, order_items_id_seq db ≤ i_id r
                   < order_items_id_seq db + Z.of_nat (length newrows)) newrows
    ∧ store (post_orders cat now req db) =
        Database (<[orders_id_seq db := o]> (orders db)) (order_items db ++ newrows)
                 (orders_id_seq db + 1)
                 (order_items_id_seq db + Z.of_nat (length newrows))
    ∧ reply (post_orders cat now req db) =
        Some (Response 201
                (OrderWithItems o
                   (select_items (o_id o) (store (post_orders cat now req db))))).

(** A request field that is absent or the empty string. *)
Definition missing_or_empty (s : option string) : Prop :=
  s = None ∨ s = Some EmptyString.

(** The same [setStatus] call made once per element of [times], each call on
    the store the previous one left: the responses, and the final store. *)
Fixpoint put_status_repeat (times : list Z) (id : Z) (st : option string)
    (db : database) : list (option response) * database :=
  match times with
  | [] => ([], db)
  | now :: rest =>
      let out := put_status now id st db in
      let '(rs, db') := put_status_repeat rest id st (store out) in
      (reply out :: rs, db')
  end.

(** The two failures the lookup contract of the specification tells apart:
    a 404 from the catalog, and anything else that makes the call reject. *)
Inductive failure_kind := NotFound | Unavailable.

Definition kind_of (e : axios_error) : failure_kind :=
  match e with
  | BadStatus 404 => NotFound
  | _ => Unavailable
  end.

Ltac valid_status :=
  unfold validStatuses; rewrite !elem_of_cons;
  repeat first [left; reflexivity | right].

(** ** Concrete stores, catalogs and requests *)

(** The store right after a first start at time 0. *)
Definition sample_store : database := init_database 0 empty_database.

(** A catalog holding product 1 (a mouse at 29.99); it answers the lookup of
    product 10 with a 200 envelope whose [success] is false, does not answer
    at all for product 7, cannot be connected to for product 8, and answers
    404 for every other id. *)
Definition mouse_catalog : catalog := λ _ pid,
  if decide (pid = 1) then Reply 200 (Envelope true (Some (Product 1 "Wireless Mouse" 2999)))
  else if decide (pid = 10) then Reply 200 (Envelope false None)
  else if decide (pid = 7) then NoReply
  else if decide (pid = 8) then ConnectionError
  else Reply 404 (Envelope false None).


(** A catalog that cannot be reached at all. *)
Definition down_catalog : catalog := λ _ _, ConnectionError.

Definition alice (its : list item) : create_request :=
  CreateRequest (Some "Alice") (Some "alice@example.com") (Some its).

Ltac not_in_trace :=
  let H := fresh in
  intros H;
  repeat (apply elem_of_cons in H as [H|H]; [discriminate H|]);
  by apply elem_of_nil in H.

(** ** The product service: [product-service/src/index.js] *)

(** A row of [products]. [pr_price] is in cents. *)
Record product_row := ProductRow {
  pr_id : Z;
  pr_name : string;
  pr_description : option string;
  pr_price : Z;
  pr_stock : Z;
  pr_category : option string;
  pr_image_url : option string;
  pr_created_at : Z;
  pr_updated_at : Z
}.

Record product_database := ProductDatabase {
  products : gmap Z product_row;
  products_id_seq : Z
}.

(** The body of [POST /api/products] and [PUT /api/products/:id]; [None] is a
    field that is absent. [in_price], in currency units, and [in_stock] are
    the values of their JSON literals. *)
Record product_input := ProductInput {
  in_name : option string;
  in_description : option string;
  in_price : option Q;
  in_stock : option Q;
  in_category : option string;
  in_image_url : option string
}.

Inductive product_body :=
  | ProductData (r : product_row)
  | ProductMessage (msg : string)
  | ProductError (msg : string).

Record product_response := ProductResponse {
  p_status : Z;
  p_json : product_body
}.

(** JavaScript truthiness of a field that is a number when present: the
    double it is read as is not 0. *)
Definition truthy_number (q : option Q) : bool :=
  match q with
  | Some q =>
      match RN q with
      | Finite x => negb (Qeq_bool x 0)
      | NaN => false
      | PosInf | NegInf => true
      end
  | None => false
  end.

(** A nullable [VARCHAR(n)] column: [NULL] is stored as it is. *)
Definition varchar_opt (n : nat) (s : option string) : option (option string) :=
  match s with
  | Some s => Some <$> varchar n s
  | None => Some None
  end.

(** A price in currency units, a JavaScript number, stored into
    [DECIMAL(10, 2)], in cents. *)
Definition price_cents (q : Q) : option Z :=
  match RN q with
  | Finite x => numeric_10_2_of_number (printed x * 100)%Q
  | _ => None
  end.

(** The three fields of a product row the order service reads. *)
Definition product_of_row (r : product_row) : product :=
  Product (pr_id r) (pr_name r) (pr_price r).

(** [GET /api/products/:id]. An id beyond the [INTEGER] range makes the
    query fail. *)
Definition get_product (id : Z) (db : product_database) : product_response :=
  if decide (int4_range id) then
    match products db !! id with
    | None => ProductResponse 404 (ProductError "Product not found")
    | Some r => ProductResponse 200 (ProductData r)
    end
  else ProductResponse 500 (ProductError "Failed to fetch product").

(** [INSERT INTO products ... RETURNING *]; as in the order service, values
    are bound and coerced before an id is drawn. *)
Definition insert_product (now : Z) (name : string) (description : option string)
    (price stock : Q) (category image_url : option string)
    (db : product_database) : product_database * option product_row :=
  match int4_of_js (RN stock), varchar 255 name, price_cents price,
        varchar_opt 100 category with
  | Some stock', Some name', Some price', Some category' =>
      let id := products_id_seq db in
      if decide (int4_range id) then
        match products db !! id with
        | Some _ => (ProductDatabase (products db) (id + 1), None)
        | None =>
            let row := ProductRow id name' description price' stock' category'
                                  image_url now now in
            (ProductDatabase (<[id := row]> (products db)) (id + 1), Some row)
        end
      else (db, None)
  | _, _, _, _ => (db, None)
  end.

(** [POST /api/products] *)
Definition create_product (now : Z) (input : product_input)
    (db : product_database) : product_response * product_database :=
  if negb (truthy (in_name input)) || negb (truthy_number (in_price input))
  then (ProductResponse 400 (ProductError "Name and price are required"), db)
  else
    match insert_product now (default EmptyString (in_name input))
            (in_description input) (default 0%Q (in_price input))
            (if truthy_number (in_stock input) then default 0%Q (in_stock input)
             else 0%Q)
            (in_category input) (in_image_url input) db with
    | (db', Some row) => (ProductResponse 201 (ProductData row), db')
    | (db', None) => (ProductResponse 500 (ProductError "Failed to create product"), db')
    end.

(** [COALESCE($n, column)] on a nullable column. *)
Definition coalesce {A} (new old : option A) : option A :=
  match new with
  | Some x => Some x
  | None => old
  end.

(** [PUT /api/products/:id]: every column is [COALESCE]d with the value sent;
    a value that does not fit its column fails the statement. *)
Definition update_product (now id : Z) (input : product_input)
    (db : product_database) : product_response * product_database :=
  let failed := (ProductResponse 500 (ProductError "Failed to update product"), db) in
  match int4_of_Z id, from_option (λ q, Some <$> int4_of_js (RN q)) (Some None)
                                  (in_stock input) with
  | Some id', Some stock' =>
      match varchar_opt 255 (in_name input),
            from_option (λ q, Some <$> price_cents q) (Some None) (in_price input),
            varchar_opt 100 (in_category input) with
      | Some name', Some price', Some category' =>
          match products db !! id' with
          | None => (ProductResponse 404 (ProductError "Product not found"), db)
          | Some r =>
              let row :=
                ProductRow (pr_id r) (default (pr_name r) name')
                           (coalesce (in_description input) (pr_description r))
                           (default (pr_price r) price')
                           (default (pr_stock r) stock')
                           (coalesce category' (pr_category r))
                           (coalesce (in_image_url input) (pr_image_url r))
                           (pr_created_at r) now in
              (ProductResponse 200 (ProductData row),
               ProductDatabase (<[id' := row]> (products db)) (products_id_seq db))
          end
      | _, _, _ => failed
      end
  | _, _ => failed
  end.

(** [DELETE /api/products/:id] *)
Definition delete_product (id : Z) (db : product_database)
    : product_response * product_database :=
  if decide (int4_range id) then
    match products db !! id with
    | None => (ProductResponse 404 (ProductError "Product not found"), db)
    | Some _ =>
        (ProductResponse 200 (ProductMessage "Product deleted successfully"),
         ProductDatabase (delete id (products db)) (products_id_seq db))
    end
  else (ProductResponse 500 (ProductError "Failed to delete product"), db).

(** What [pool.query] returns, as far as [initDatabase] looks at it. *)
Record query_result := QueryResult {
  rowCount : nat;
  first_count : Z
}.

(** [SELECT COUNT( * ) FROM products]: one row, which holds the count. *)
Definition select_count_products (db : product_database) : query_result :=
  QueryResult 1 (Z.of_nat (size (products db))).

Definition placeholder (colours text : string) : option string :=
  Some ("https://via.placeholder.com/300x200/" +:+ colours +:+ "?text=" +:+ text).

(** [initDatabase] of the product service: the sample rows are inserted when
    the [rowCount] of the counting query is 0. *)
Definition product_init_database (now : Z) (db : product_database) : product_database :=
  if decide (rowCount (select_count_products db) = 0%nat) then
    let i := products_id_seq db in
    ProductDatabase
      (<[i + 4 := ProductRow (i + 4) monitor_name
                    (Some "Ultra HD 4K monitor with HDR support") 39999 30
                    (Some "Electronics") (placeholder "6610f2/ffffff" "Monitor") now now]>
       (<[i + 3 := ProductRow (i + 3) "Mechanical Keyboard"
                     (Some "RGB mechanical keyboard with blue switches") 8999 75
                     (Some "Accessories") (placeholder "dc3545/ffffff" "Keyboard") now now]>
        (<[i + 2 := ProductRow (i + 2) "USB-C Hub"
                      (Some "7-in-1 USB-C hub with HDMI and USB 3.0") 4999 100
                      (Some "Accessories") (placeholder "ffc107/000000" "USB+Hub") now now]>
         (<[i + 1 := ProductRow (i + 1) "Wireless Mouse"
                       (Some "Ergonomic wireless mouse with USB receiver") 2999 200
                       (Some "Accessories") (placeholder "28a745/ffffff" "Mouse") now now]>
          (<[i := ProductRow i "Laptop Pro 15"
                    (Some "High-performance laptop with 16GB RAM") 129999 50
                    (Some "Electronics") (placeholder "007bff/ffffff" "Laptop") now now]>
             (products db))))))
      (i + 5)
  else db.

Definition empty_product_database : product_database := ProductDatabase ∅ 1.

(** The stores the product service can be in. *)
Inductive product_reachable : product_database → Prop :=
  | preach_init now : product_reachable (product_init_database now empty_product_database)
  | preach_restart now db :
      product_reachable db → product_reachable (product_init_database now db)
  | preach_create now input db :
      product_reachable db → product_reachable (create_product now input db).2
  | preach_update now id input db :
      product_reachable db → product_reachable (update_product now id input db).2
  | preach_delete id db :
      product_reachable db → product_reachable (delete_product id db).2.

(** The invariant of the product store. *)
Definition product_wf (db : product_database) : Prop :=
  1 ≤ products_id_seq db
  ∧ ∀ id r, products db !! id = Some r →
      pr_id r = id ∧ id < products_id_seq db ∧ catalog_product (product_of_row r).

(** The product service's answer as the order service's [axios.get] meets
    it: the status, and the [success] and [data] fields of the JSON body. *)
Definition on_wire (r : product_response) : wire :=
  match p_json r with
  | ProductData row => Reply (p_status r) (Envelope true (Some (product_of_row row)))
  | _ => Reply (p_status r) (Envelope false None)
  end.

(** The catalog that is the product service on store [pdb], every lookup
    reaching [GET /api/products/:id] and being answered. *)
Definition product_service_catalog (pdb : product_database) : catalog :=
  λ _ product_id, on_wire (get_product product_id pdb).

(** ** The gateway's [/health]: [api-gateway/index.js] *)

Record health_report := HealthReport {
  h_status : Z;
  h_product : string;
  h_order : string
}.

(** One of the two [try { await axios.get(..., { timeout: 3000 }) }] blocks;
    the body of the reply is not read. *)
Definition service_health (w : wire) : option string :=
  match axios_get (Some 3000%N) w with
  | None => None
  | Some (Resolved _) => Some "healthy"
  | Some (Rejected _) => Some "unhealthy"
  end.

Definition gateway_health (product_wire order_wire : wire) : option health_report :=
  match service_health product_wire with
  | None => None
  | Some p =>
      match service_health order_wire with
      | None => None
      | Some o =>
          let allHealthy := forallb (λ s, bool_decide (s = "healthy")) [p; o] in
          Some (HealthReport (if allHealthy then 200 else 503) p o)
      end
  end.

(** ** The pages that call the order service *)

(** A product as the order form lists it. *)
Record listed_product := ListedProduct {
  l_id : Z;
  l_name : string;
  l_price : Z;
  l_stock : Z
}.

Record cart_item := CartItem {
  c_product_id : Z;
  c_name : string;
  c_price : Z;
  c_quantity : Z;
  c_max_stock : Z
}.

(** [addToCart] of the order form. *)
Definition addToCart (product : listed_product) (cart : list cart_item)
    : list cart_item :=
  match List.find (λ i, bool_decide (c_product_id i = l_id product)) cart with
  | Some existing =>
      (λ i, if bool_decide (c_product_id i = l_id product)
            then CartItem (c_product_id i) (c_name i) (c_price i)
                          (c_quantity i + 1) (c_max_stock i)
            else i) <$> cart
  | None =>
      cart ++ [CartItem (l_id product) (l_name product) (l_price product) 1
                        (l_stock product)]
  end.

(** The body [handleSubmit] posts. *)
Definition submit_request (customerName customerEmail : string)
    (cart : list cart_item) : create_request :=
  CreateRequest (Some customerName) (Some customerEmail)
    (Some ((λ i, Item (c_product_id i) (inject_Z (c_quantity i))) <$> cart)).

(** The cart after clicking "Add" on each product of [clicks] in turn. *)
Definition cart_after (clicks : list listed_product) : list cart_item :=
  foldl (λ cart p, addToCart p cart) [] clicks.

(** How many of the clicks were on the product of id [id]. *)
Definition clicks_on (id : Z) (clicks : list listed_product) : nat :=
  length (filter (λ p, l_id p = id) clicks).

(** What the order form maintains about its cart, given the clicks made. *)
Definition cart_tracks (clicks : list listed_product) (cart : list cart_item) : Prop :=
  NoDup (c_product_id <$> cart)
  ∧ (∀ i, i ∈ cart → c_quantity i = Z.of_nat (clicks_on (c_product_id i) clicks))
  ∧ (∀ i, i ∈ cart → (0 < clicks_on (c_product_id i) clicks)%nat)
  ∧ (∀ p, p ∈ clicks → l_id p ∈ (c_product_id <$> cart)).

(** The statuses the orders page has a button for. *)
Definition status_buttons : list string :=
  ["pending"; "processing"; "shipped"; "delivered"; "cancelled"].

(** A product store holding one product, created at time 1 on an empty
    store: a mouse at 29.99 with 200 in stock. *)
Definition mouse_input : product_input :=
  ProductInput (Some "Wireless Mouse") None (Some (2999 # 100)%Q) (Some 200%Q)
               (Some "Accessories") None.

Definition mouse_store : product_database :=
  (create_product 1 mouse_input empty_product_database).2.

(** ** Numbers *)

Lemma is_integral_spec q :
  is_integral q = true → (q == inject_Z (Qfloor q))%Q.
Proof.
  destruct q as [n d]. unfold is_integral, Qeq. cbn.
  intros H%Z.eqb_eq.
  pose proof (Z.div_mod n (Z.pos d)) as E. lia.
Qed.


Lemma Qfloor_inject_half z : Qfloor (inject_Z z + (1 # 2))%Q = z.
Proof.
  unfold Qplus, inject_Z. cbn.
  change (Z.pos (1 * 2)) with 2.
  replace (z * 2 + 1 * 1) with (1 + z * 2) by lia.
  rewrite Z.div_add by lia. reflexivity.
Qed.

Lemma round_half_away_inject z : round_half_away (inject_Z z) = z.
Proof.
  unfold round_half_away. destruct (Qle_bool 0 (inject_Z z)).
  - apply Qfloor_inject_half.
  - assert (E : (- inject_Z z == inject_Z (- z))%Q) by (unfold Qeq; cbn; lia).
    assert (E' : (- inject_Z z + (1 # 2) == inject_Z (- z) + (1 # 2))%Q)
      by (rewrite E; reflexivity).
    rewrite (Qfloor_comp _ _ E'), Qfloor_inject_half. lia.
Qed.

Lemma round_half_away_comp q q' :
  (q == q')%Q → round_half_away q = round_half_away q'.
Proof.
  intros E. unfold round_half_away.
  assert (Qle_bool 0 q = Qle_bool 0 q') as ->.
  { apply eq_true_iff_eq. rewrite !Qle_bool_iff, E. reflexivity. }
  assert (E1 : (q + (1 # 2) == q' + (1 # 2))%Q) by (rewrite E; reflexivity).
  assert (E2 : (- q + (1 # 2) == - q' + (1 # 2))%Q) by (rewrite E; reflexivity).
  rewrite (Qfloor_comp _ _ E1), (Qfloor_comp _ _ E2). reflexivity.
Qed.

Lemma int4_of_number_Some q z :
  int4_of_number q = Some z → (q == inject_Z z)%Q ∧ int4_range z.
Proof.
  unfold int4_of_number. destruct (is_integral q) eqn:Hi; [|done].
  case_decide; [|done]. intros [= <-]. split; [by apply is_integral_spec|done].
Qed.


Lemma is_integral_comp q q' : (q == q')%Q → is_integral q = is_integral q'.
Proof.
  intros E. destruct (is_integral q) eqn:H1, (is_integral q') eqn:H2; try done.
  - apply is_integral_spec in H1. rewrite E in H1.
    destruct q' as [n d]. unfold is_integral, Qeq in *. cbn in *.
    apply Z.eqb_neq in H2. exfalso. apply H2.
    rewrite Z.mul_1_r in H1. rewrite H1. apply Z.mod_mul. lia.
  - apply is_integral_spec in H2. rewrite <- E in H2.
    destruct q as [n d]. unfold is_integral, Qeq in *. cbn in *.
    apply Z.eqb_neq in H1. exfalso. apply H1.
    rewrite Z.mul_1_r in H2. rewrite H2. apply Z.mod_mul. lia.
Qed.

Lemma int4_of_number_comp q q' :
  (q == q')%Q → int4_of_number q = int4_of_number q'.
Proof.
  intros E. unfold int4_of_number.
  rewrite (is_integral_comp _ _ E), (Qfloor_comp _ _ E). reflexivity.
Qed.

(** Known doubles: 0.1 is 3602879701896397 / 2^55; 2^53 + 1 lies halfway
    between two doubles and goes to the even one, as does 2^53 + 3; the
    largest double is 2^1024 - 2^971, and the midpoint above it overflows;
    the smallest is 2^-1074, and half of it goes to 0. *)
Example RN_known_doubles :
  RN (1 # 10) = Finite (3602879701896397 # 36028797018963968)
  ∧ RN 9007199254740993 = Finite 9007199254740992
  ∧ RN 9007199254740995 = Finite 9007199254740996
  ∧ RN (pow2 1024 - pow2 971) = Finite (Qred (pow2 1024 - pow2 971))
  ∧ RN (pow2 1024 - pow2 970) = PosInf
  ∧ RN (- pow2 1024) = NegInf
  ∧ RN (pow2 (-1074)) = Finite (Qred (pow2 (-1074)))
  ∧ RN (pow2 (-1075)) = Finite 0.
Proof. split_and!; vm_compute; reflexivity. Qed.

(** 0.1 + 0.2 is the double printed as 0.30000000000000004 (which is
    7500000000000001 / 25000000000000000), and 29.99 × 2 the one printed as
    59.98; 1e21 and 5e-324 are printed with one digit. *)
Example printed_known_doubles :
  js_add (RN (1 # 10)) (RN (2 # 10)) = Finite (1351079888211149 # 4503599627370496)
  ∧ printed (1351079888211149 # 4503599627370496)
    = 7500000000000001 # 25000000000000000
  ∧ js_mul (price_number 2999) (RN 2) = Finite (8441434551552573 # 140737488355328)
  ∧ printed (8441434551552573 # 140737488355328) = 2999 # 50
  ∧ printed 1000000000000000000000 = 1000000000000000000000%Q
  ∧ Qeq_bool (printed (Qred (pow2 (-1074)))) (5 * pow10 (-324)) = true.
Proof. split_and!; vm_compute; reflexivity. Qed.

(** What is not a number: infinity times zero, and the difference of two
    infinities. *)
Example js_not_a_number :
  js_mul (RN (pow2 1024)) (RN 0) = NaN
  ∧ js_add (RN (pow2 1024)) (RN (- pow2 1024)) = NaN
  ∧ js_mul (RN (pow2 1024)) (RN (-2)) = NegInf
  ∧ js_add (RN (pow2 1024)) (RN 1) = PosInf.
Proof. split_and!; vm_compute; reflexivity. Qed.

Lemma pow2_pos e : (0 < pow2 e)%Q.
Proof. apply Qpower_0_lt. reflexivity. Qed.

Lemma pow2_plus a b : (pow2 (a + b) == pow2 a * pow2 b)%Q.
Proof. apply Qpower_plus. discriminate. Qed.

Lemma pow2_le a b : a ≤ b → (pow2 a <= pow2 b)%Q.
Proof. intros H. apply Qpower_le_compat_l; [exact H|]. unfold Qle. cbn. lia. Qed.

Lemma pow2_nonneg_Z k : 0 ≤ k → (pow2 k == inject_Z (2 ^ k))%Q.
Proof. intros H. unfold pow2. symmetry. apply (Zpower_Qpower 2 k H). Qed.

Lemma round_half_even_near q :
  (Qabs (inject_Z (round_half_even q) - q) <= 1 # 2)%Q.
Proof.
  unfold round_half_even.
  pose proof (Qfloor_le q) as Hlo. pose proof (Qlt_floor q) as Hhi.
  rewrite inject_Z_plus in Hhi. change (inject_Z 1) with 1%Q in Hhi.
  apply Qabs_Qle_condition.
  destruct (Qcompare_spec (q - inject_Z (Qfloor q)) (1 # 2)) as [E|L|G].
  - destruct (Z.even (Qfloor q)); rewrite ?inject_Z_plus;
      change (inject_Z 1) with 1%Q; lra.
  - lra.
  - rewrite inject_Z_plus. change (inject_Z 1) with 1%Q. lra.
Qed.

Lemma Qdiv_le_cross a b c d :
  (0 < b)%Q → (0 < d)%Q → (a * d <= c * b)%Q → (a / b <= c / d)%Q.
Proof.
  intros Hb Hd H. apply Qle_shift_div_r; [exact Hb|].
  assert (E : (c / d * b == (c * b) / d)%Q) by (field; lra).
  rewrite E. apply Qle_shift_div_l; [exact Hd|exact H].
Qed.

Lemma ilog2_lower q : ¬ (q == 0)%Q → (pow2 (ilog2 q) <= Qabs q)%Q.
Proof.
  intros Hq. unfold ilog2.
  set (a := Z.log2 (Z.abs (Qnum q))). set (b := Z.log2 (Z.pos (Qden q))).
  destruct (Qle_bool (pow2 (a - b)) (Qabs q)) eqn:Ht.
  - by apply Qle_bool_iff.
  - clear Ht. destruct q as [n d]. cbn [Qnum Qden] in *.
    assert (Hn : n ≠ 0).
    { intros ->. apply Hq. reflexivity. }
    assert (Ha : 2 ^ a ≤ Z.abs n) by (apply Z.log2_spec; lia).
    assert (Hb : Z.pos d < 2 ^ (b + 1)).
    { replace (b + 1) with (Z.succ b) by lia. apply Z.log2_spec. lia. }
    assert (Ha0 : 0 ≤ a) by apply Z.log2_nonneg.
    assert (Hb0 : 0 ≤ b) by apply Z.log2_nonneg.
    assert (E : (pow2 (a - b - 1) == inject_Z (2 ^ a) / inject_Z (2 ^ (b + 1)))%Q).
    { replace (a - b - 1) with (a + - (b + 1)) by lia.
      rewrite pow2_plus. unfold pow2 at 2. rewrite Qpower_opp.
      fold (pow2 (b + 1)). rewrite !pow2_nonneg_Z by lia. reflexivity. }
    rewrite E. change (Qabs (n # d)) with (Z.abs n # d).
    rewrite (Qmake_Qdiv (Z.abs n) d).
    apply Qdiv_le_cross.
    + change 0%Q with (inject_Z 0). rewrite <- Zlt_Qlt. lia.
    + reflexivity.
    + rewrite <- !inject_Z_mult, <- Zle_Qle. nia.
Qed.

Lemma Qabs_scale x y u : (0 < u)%Q →
  (Qabs (x - y / u) <= 1 # 2)%Q → (Qabs (x * u - y) <= (1 # 2) * u)%Q.
Proof.
  intros Hu H.
  assert (E : (x * u - y == (x - y / u) * u)%Q) by (field; lra).
  rewrite E, Qabs_Qmult, (Qabs_pos u) by lra.
  apply Qmult_le_compat_r; [exact H|lra].
Qed.

Lemma tau_covers : (pow2 (-1075) <= tau)%Q.
Proof. apply Qle_bool_iff. by vm_compute. Qed.

Lemma pow2_eps e : (pow2 (e - 53) == pow2 e * eps)%Q.
Proof.
  replace (e - 53) with (e + -53) by lia. rewrite pow2_plus.
  assert (E : (pow2 (-53) == eps)%Q) by (by vm_compute).
  by rewrite E.
Qed.

Lemma pow2_half u : ((1 # 2) * pow2 u == pow2 (u - 1))%Q.
Proof.
  replace (u - 1) with (u + -1) by lia. rewrite pow2_plus.
  assert (E : (pow2 (-1) == 1 # 2)%Q) by (by vm_compute).
  rewrite E. ring.
Qed.

(** Rounding to the grid of doubles around [q] moves it by at most half a
    unit in the last place. *)
Lemma round_to_grid_error q u :
  ¬ (q == 0)%Q → u = Z.max (ilog2 q - 52) (-1074) →
  (Qabs (inject_Z (round_half_even (q / pow2 u)) * pow2 u - q)
   <= eps * Qabs q + tau)%Q.
Proof.
  intros Hz Eu.
  assert (Hnn : (0 <= eps * Qabs q)%Q).
  { apply Qmult_le_0_compat; [by vm_compute|apply Qabs_nonneg]. }
  assert (Htau : (0 <= tau)%Q) by (by vm_compute).
  pose proof (pow2_pos u) as Hu.
  pose proof (Qabs_scale _ _ _ Hu (round_half_even_near (q / pow2 u))) as Hm.
  rewrite pow2_half in Hm.
  pose proof (ilog2_lower _ Hz) as He.
  assert (Hu' : (pow2 (u - 1) <= eps * Qabs q + tau)%Q).
  { destruct (Z.max_spec (ilog2 q - 52) (-1074)) as [[_ E]|[_ E]];
      rewrite <- Eu in E; rewrite E.
    - change (-1074 - 1) with (-1075). pose proof tau_covers. lra.
    - replace (ilog2 q - 52 - 1) with (ilog2 q - 53) by lia. rewrite pow2_eps.
      assert ((pow2 (ilog2 q) * eps <= eps * Qabs q)%Q); [|lra].
      rewrite (Qmult_comm (pow2 (ilog2 q))). apply Qmult_le_l; [by vm_compute|exact He]. }
  lra.
Qed.

(** The error of rounding to the nearest double. *)
Lemma RN_error q r :
  RN q = Finite r → (Qabs (r - q) <= eps * Qabs q + tau)%Q.
Proof.
  unfold RN. pose proof (Qred_correct q) as Hred.
  destruct (Qeq_bool (Qred q) 0) eqn:Hz.
  { intros [= <-]. apply Qeq_bool_iff in Hz. rewrite Hred in Hz.
    assert (E : (0 - q == 0)%Q) by (rewrite Hz; ring).
    rewrite E, Hz. by vm_compute. }
  apply Qeq_bool_neq in Hz.
  destruct (1024 <=? ilog2 (Qred q)); [unfold infinity_of; by destruct (Qle_bool 0 _)|].
  destruct (Qle_bool _ _); [unfold infinity_of; by destruct (Qle_bool 0 _)|].
  intros [= <-]. rewrite Qred_correct.
  pose proof (round_to_grid_error (Qred q) _ Hz eq_refl) as H.
  set (m := inject_Z _) in *. set (p := pow2 _) in *.
  by rewrite Hred in H.
Qed.

Lemma RN_comp q q' : (q == q')%Q → RN q = RN q'.
Proof. intros E. unfold RN. by rewrite (Qred_complete _ _ E). Qed.

(** Numbers of moderate size do not overflow. *)
Lemma RN_finite q : (Qabs q <= huge)%Q → ∃ r, RN q = Finite r.
Proof.
  intros Hq. unfold RN. pose proof (Qred_correct q) as Hred.
  destruct (Qeq_bool (Qred q) 0) eqn:Hz; [by eexists|].
  apply Qeq_bool_neq in Hz.
  pose proof (ilog2_lower _ Hz) as He.
  pose proof (round_to_grid_error (Qred q) _ Hz eq_refl) as H.
  assert (Hq' : (Qabs (Qred q) <= huge)%Q) by (by rewrite Hred).
  clear Hred Hq.
  assert (Hh : (2 * huge + 1 < pow2 1024)%Q) by (by vm_compute).
  assert (Heps : (eps <= 1)%Q) by (by vm_compute).
  assert (Htau : (tau <= 1)%Q) by (by vm_compute).
  pose proof (Qabs_nonneg (Qred q)) as Hnn.
  destruct (1024 <=? ilog2 (Qred q)) eqn:H1.
  { apply Z.leb_le, pow2_le in H1. exfalso. lra. }
  set (r := (inject_Z _ * pow2 _)%Q) in *.
  destruct (Qle_bool (pow2 1024) (Qabs r)) eqn:H2; [|by eexists].
  apply Qle_bool_iff in H2. exfalso.
  pose proof (Qabs_triangle_reverse r (Qred q)) as Ht.
  pose proof (Qle_Qabs (r - Qred q)) as Hle.
  assert ((eps * Qabs (Qred q) <= 1 * Qabs (Qred q))%Q).
  { apply Qmult_le_compat_r; [exact Heps|exact Hnn]. }
  lra.
Qed.

Lemma RN_close q :
  (Qabs q <= huge)%Q →
  ∃ r, RN q = Finite r ∧ (Qabs (r - q) <= eps * Qabs q + tau)%Q.
Proof.
  intros Hq. destruct (RN_finite q Hq) as [r Hr]. exists r.
  split; [exact Hr|by apply RN_error].
Qed.




Lemma Qfloor_between z y :
  (inject_Z z <= y)%Q → (y < inject_Z z + 1)%Q → Qfloor y = z.
Proof.
  intros Hlo Hhi.
  pose proof (Qfloor_le y) as H1. pose proof (Qlt_floor y) as H2.
  rewrite inject_Z_plus in H2. change (inject_Z 1) with 1%Q in H2.
  assert (L1 : (inject_Z (Qfloor y) < inject_Z (z + 1))%Q).
  { rewrite inject_Z_plus. change (inject_Z 1) with 1%Q. lra. }
  assert (L2 : (inject_Z z < inject_Z (Qfloor y + 1))%Q).
  { rewrite inject_Z_plus. change (inject_Z 1) with 1%Q. lra. }
  rewrite <- Zlt_Qlt in L1, L2. lia.
Qed.

(** A number less than a half away from an integer rounds to it. *)
Lemma round_half_away_near q z :
  (Qabs (q - inject_Z z) < 1 # 2)%Q → round_half_away q = z.
Proof.
  intros H. apply Qabs_Qlt_condition in H as [H1 H2]. unfold round_half_away.
  destruct (Qle_bool 0 q).
  - apply Qfloor_between; lra.
  - assert (Qfloor (- q + (1 # 2)) = - z); [|lia].
    apply Qfloor_between; rewrite inject_Z_opp; lra.
Qed.

Lemma rounds_to_close d x :
  rounds_to d x = true → (Qabs (d - x) <= 2 * eps * Qabs x + 2 * tau)%Q.
Proof.
  unfold rounds_to. destruct (RN d) as [r| | |] eqn:Hr; [|done..].
  intros E%Qeq_bool_iff. apply RN_error in Hr. rewrite E, Qabs_Qminus in Hr.
  assert (Ht : (0 <= tau)%Q) by (by vm_compute).
  assert (Hd : (Qabs d <= Qabs x + Qabs (d - x))%Q).
  { assert (E' : (d == x + (d - x))%Q) by ring.
    rewrite E' at 1. apply Qabs_triangle. }
  pose proof (Qabs_nonneg x). pose proof (Qabs_nonneg (d - x)).
  unfold eps in *. lra.
Qed.

Lemma digits_close x k d :
  digits x k = Some d → rounds_to d x = true.
Proof.
  unfold digits.
  set (lo := Qred _). set (hi := Qred _).
  destruct (rounds_to lo x) eqn:Hlo, (rounds_to hi x) eqn:Hhi; [| | |done].
  - destruct (_ ?= _)%Q; [destruct (Z.even _)|..]; by intros [= <-].
  - by intros [= <-].
  - by intros [= <-].
Qed.

Lemma shortest_close x fuel : ∀ k,
  (Qabs (shortest x k fuel - x) <= 2 * eps * Qabs x + 2 * tau)%Q.
Proof.
  assert (Hnn : (0 <= 2 * eps * Qabs x + 2 * tau)%Q).
  { pose proof (Qabs_nonneg x).
    assert ((0 <= 2 * eps * Qabs x)%Q) by (apply Qmult_le_0_compat; [by vm_compute|done]).
    assert ((0 <= tau)%Q) by (by vm_compute). lra. }
  induction fuel as [|fuel IH]; intros k; cbn [shortest].
  - assert (E : (x - x == 0)%Q) by ring. by rewrite E.
  - destruct (digits x k) as [d|] eqn:Hd; [|apply IH].
    by apply rounds_to_close, digits_close with k.
Qed.

(** The decimal a double is printed as is the double up to a relative error
    of 2^-52. *)
Lemma printed_close x :
  (Qabs (printed x - x) <= 2 * eps * Qabs x + 2 * tau)%Q.
Proof.
  unfold printed. destruct (Qeq_bool x 0) eqn:Hz.
  { apply Qeq_bool_iff in Hz. rewrite Hz. by vm_compute. }
  destruct (Qle_bool 0 x); [apply shortest_close|].
  pose proof (shortest_close (- x) 17 1) as H.
  rewrite Qabs_opp in H.
  assert (E : (- shortest (- x) 1 17 - x == - (shortest (- x) 1 17 - - x))%Q) by ring.
  by rewrite E, Qabs_opp.
Qed.

(** The double product of a price and a quantity, against the exact one. *)
Lemma js_mul_close c z qz :
  Z.abs c < 10 ^ 10 → int4_range z → (qz == inject_Z z)%Q →
  Z.abs (c * z) ≤ 10 ^ 10 →
  ∃ l, js_mul (price_number c) (Finite qz) = Finite l
       ∧ (Qabs (l - inject_Z (c * z) / 100) <= line_error)%Q.
Proof.
  intros Hc Hz Eq Hcz.
  set (C := (inject_Z c / 100)%Q). set (L := (inject_Z (c * z) / 100)%Q).
  assert (HC : (Qabs C <= 100000000)%Q).
  { apply Qabs_Qle_condition. unfold C.
    assert (H1 : (inject_Z (- 10 ^ 10) <= inject_Z c)%Q) by (rewrite <- Zle_Qle; lia).
    assert (H2 : (inject_Z c <= inject_Z (10 ^ 10))%Q) by (rewrite <- Zle_Qle; lia).
    change (inject_Z (- 10 ^ 10)) with (-10000000000)%Q in H1.
    change (inject_Z (10 ^ 10)) with 10000000000%Q in H2.
    split; [apply Qle_shift_div_l|apply Qle_shift_div_r]; lra. }
  assert (HL : (Qabs L <= 100000000)%Q).
  { apply Qabs_Qle_condition. unfold L.
    assert (H1 : (inject_Z (- 10 ^ 10) <= inject_Z (c * z))%Q) by (rewrite <- Zle_Qle; lia).
    assert (H2 : (inject_Z (c * z) <= inject_Z (10 ^ 10))%Q) by (rewrite <- Zle_Qle; lia).
    change (inject_Z (- 10 ^ 10)) with (-10000000000)%Q in H1.
    change (inject_Z (10 ^ 10)) with 10000000000%Q in H2.
    split; [apply Qle_shift_div_l|apply Qle_shift_div_r]; lra. }
  assert (HZ : (Qabs (inject_Z z) <= 2147483648)%Q).
  { change (Qabs (inject_Z z)) with (inject_Z (Z.abs z)).
    change 2147483648%Q with (inject_Z 2147483648). rewrite <- Zle_Qle.
    unfold int4_range in Hz. lia. }
  destruct (RN_close C) as (p & Hp & Ep).
  { unfold huge. lra. }
  unfold price_number. fold C. rewrite Hp. cbn [js_mul]. rewrite (RN_comp (p * qz) (p * inject_Z z)) by (by rewrite Eq).
  assert (EL : (C * inject_Z z == L)%Q).
  { unfold C, L. rewrite inject_Z_mult. field. }
  assert (Hpz : (Qabs (p * inject_Z z - L)
                 <= eps * 100000000 + tau * 2147483648)%Q).
  { assert (E : (p * inject_Z z - L == (p - C) * inject_Z z)%Q)
      by (rewrite <- EL; ring).
    rewrite E, Qabs_Qmult.
    assert (H1 : (Qabs (p - C) * Qabs (inject_Z z)
                  <= (eps * Qabs C + tau) * Qabs (inject_Z z))%Q).
    { apply Qmult_le_compat_r; [exact Ep|apply Qabs_nonneg]. }
    assert (E2 : ((eps * Qabs C + tau) * Qabs (inject_Z z)
                  == eps * Qabs L + tau * Qabs (inject_Z z))%Q).
    { rewrite <- EL, Qabs_Qmult. ring. }
    rewrite E2 in H1. unfold eps, tau in *. lra. }
  assert (Hmag : (Qabs (p * inject_Z z) <= Qabs L + Qabs (p * inject_Z z - L))%Q).
  { assert (E' : (p * inject_Z z == L + (p * inject_Z z - L))%Q) by ring.
    rewrite E' at 1. apply Qabs_triangle. }
  destruct (RN_close (p * inject_Z z)) as (l & Hl & El).
  { unfold huge, eps, tau in *. lra. }
  exists l. split; [exact Hl|].
  assert (Htri : (Qabs (l - L) <= Qabs (l - p * inject_Z z) + Qabs (p * inject_Z z - L))%Q).
  { assert (E' : (l - L == (l - p * inject_Z z) + (p * inject_Z z - L))%Q) by ring.
    rewrite E'. apply Qabs_triangle. }
  pose proof (Qabs_nonneg (p * inject_Z z)).
  unfold line_error, eps, tau in *. lra.
Qed.

(** One step of the running total, against the exact one. *)
Lemma js_add_close t l a b d :
  (Qabs (t - a) <= d)%Q → (d <= 1)%Q → (Qabs (l - b) <= line_error)%Q →
  (Qabs (a + b) <= 100000000)%Q →
  ∃ t', js_add (Finite t) (Finite l) = Finite t'
        ∧ (Qabs (t' - (a + b)) <= d + step_error)%Q.
Proof.
  intros Ht Hd Hl Hab. cbn [js_add].
  assert (Htri : (Qabs (t + l - (a + b)) <= Qabs (t - a) + Qabs (l - b))%Q).
  { assert (E' : (t + l - (a + b) == (t - a) + (l - b))%Q) by ring.
    rewrite E'. apply Qabs_triangle. }
  assert (Hmag : (Qabs (t + l) <= Qabs (a + b) + Qabs (t + l - (a + b)))%Q).
  { assert (E' : (t + l == (a + b) + (t + l - (a + b)))%Q) by ring.
    rewrite E' at 1. apply Qabs_triangle. }
  pose proof (Qabs_nonneg (t - a)).
  destruct (RN_close (t + l)) as (t' & Ht' & Et).
  { unfold huge, line_error in *. lra. }
  exists t'. split; [exact Ht'|].
  assert (Htri' : (Qabs (t' - (a + b)) <= Qabs (t' - (t + l)) + Qabs (t + l - (a + b)))%Q).
  { assert (E' : (t' - (a + b) == (t' - (t + l)) + (t + l - (a + b)))%Q) by ring.
    rewrite E'. apply Qabs_triangle. }
  pose proof (Qabs_nonneg (t + l)).
  unfold line_error, step_error, eps, tau in *. lra.
Qed.

(** A total computed within half a cent of a whole number of cents is stored
    as that number of cents. *)
Lemma stored_total_exact t S :
  (Qabs (t - inject_Z S / 100) <= 4 # 1000)%Q → Z.abs S ≤ 10 ^ 10 →
  round_half_away (printed t * 100) = S.
Proof.
  intros Ht HS. apply round_half_away_near.
  pose proof (printed_close t) as Hp.
  set (s := (inject_Z S / 100)%Q) in *.
  assert (Hs : (Qabs s <= 100000000)%Q).
  { apply Qabs_Qle_condition. unfold s.
    assert (H1 : (inject_Z (- 10 ^ 10) <= inject_Z S)%Q) by (rewrite <- Zle_Qle; lia).
    assert (H2 : (inject_Z S <= inject_Z (10 ^ 10))%Q) by (rewrite <- Zle_Qle; lia).
    change (inject_Z (- 10 ^ 10)) with (-10000000000)%Q in H1.
    change (inject_Z (10 ^ 10)) with 10000000000%Q in H2.
    split; [apply Qle_shift_div_l|apply Qle_shift_div_r]; lra. }
  assert (Hmag : (Qabs t <= Qabs s + Qabs (t - s))%Q).
  { assert (E' : (t == s + (t - s))%Q) by ring. rewrite E' at 1. apply Qabs_triangle. }
  assert (Htri : (Qabs (printed t - s) <= Qabs (printed t - t) + Qabs (t - s))%Q).
  { assert (E' : (printed t - s == (printed t - t) + (t - s))%Q) by ring.
    rewrite E'. apply Qabs_triangle. }
  assert (E : (printed t * 100 - inject_Z S == (printed t - s) * 100)%Q).
  { unfold s. field. }
  rewrite E, Qabs_Qmult. change (Qabs 100) with 100%Q.
  pose proof (Qabs_nonneg t).
  unfold eps, tau in *. lra.
Qed.


Lemma int4_of_js_Some x z :
  int4_of_js x = Some z → ∃ q, x = Finite q ∧ (q == inject_Z z)%Q ∧ int4_range z.
Proof.
  destruct x as [q| | |]; [|done..]. cbn. intros [H1 H2]%int4_of_number_Some.
  by exists q.
Qed.






(** ** The lookup loop *)

Section Loop.
Variable cat : catalog.


Lemma verify_products_caught pre it post : ∀ n total vs,
  (∀ k j, pre !! k = Some j → passes cat (n + k) j) →
  (fails cat (n + length pre) it
   ∨ lookup cat (n + length pre) it = Some (Resolved (Envelope true None))) →
  verify_products cat n (pre ++ it :: post) total vs =
    (LoopCaught (product_id it),
     (λ it, HttpGet (product_id it)) <$> (pre ++ [it])).
Proof.
  induction pre as [|j pre IH]; intros n total vs H Hit.
  - cbn in *. rewrite Nat.add_0_r in Hit. unfold fails, lookup in Hit.
    destruct Hit as [[e He]|He]; by rewrite He.
  - assert (Hrest : ∀ k j, pre !! k = Some j → passes cat (S n + k) j).
    { intros k j' Hk. replace (S n + k)%nat with (n + S k)%nat by lia.
      by apply H. }
    assert (Hit' : fails cat (S n + length pre) it
      ∨ lookup cat (S n + length pre) it = Some (Resolved (Envelope true None))).
    { cbn [length] in Hit.
      by replace (S n + length pre)%nat with (n + S (length pre))%nat by lia. }
    pose proof (H 0%nat j eq_refl) as H0. rewrite Nat.add_0_r in H0.
    cbn [verify_products app fmap list_fmap].
    destruct H0 as [[p Hp]|[d Hd]].
    + unfold resolves_to, lookup in Hp. rewrite Hp. cbn.
      by rewrite (IH (S n) _ _ Hrest Hit').
    + unfold lookup in Hd. rewrite Hd. cbn.
      by rewrite (IH (S n) _ _ Hrest Hit').
Qed.

Lemma verify_products_pending pre it post : ∀ n total vs,
  (∀ k j, pre !! k = Some j → passes cat (n + k) j) →
  lookup cat (n + length pre) it = None →
  verify_products cat n (pre ++ it :: post) total vs =
    (LoopPending, (λ it, HttpGet (product_id it)) <$> (pre ++ [it])).
Proof.
  induction pre as [|j pre IH]; intros n total vs H Hit.
  - cbn in *. rewrite Nat.add_0_r in Hit. unfold lookup in Hit. by rewrite Hit.
  - assert (Hrest : ∀ k j, pre !! k = Some j → passes cat (S n + k) j).
    { intros k j' Hk. replace (S n + k)%nat with (n + S k)%nat by lia.
      by apply H. }
    assert (Hit' : lookup cat (S n + length pre) it = None).
    { cbn [length] in Hit.
      by replace (S n + length pre)%nat with (n + S (length pre))%nat by lia. }
    pose proof (H 0%nat j eq_refl) as H0. rewrite Nat.add_0_r in H0.
    cbn [verify_products app fmap list_fmap].
    destruct H0 as [[p Hp]|[d Hd]].
    + unfold resolves_to, lookup in Hp. rewrite Hp. cbn.
      by rewrite (IH (S n) _ _ Hrest Hit').
    + unfold lookup in Hd. rewrite Hd. cbn.
      by rewrite (IH (S n) _ _ Hrest Hit').
Qed.

(** The loop runs through only if every lookup passes, and then it has
    collected the kept items and added up their line totals. *)
Lemma verify_products_done its : ∀ n t0 vs0 total vs tr,
  verify_products cat n its t0 vs0 = (LoopDone total vs, tr) →
  vs = vs0 ++ kept cat n its
  ∧ total = foldl (λ t v, js_add t (line_total v)) t0 (kept cat n its)
  ∧ ∀ k it, its !! k = Some it → passes cat (n + k) it.
Proof.
  induction its as [|it rest IH]; intros n t0 vs0 total vs tr H.
  - cbn in H. injection H as <- <- _. cbn. by rewrite app_nil_r.
  - cbn [verify_products kept] in *. unfold lookup at 1 2.
    destruct (axios_get None (cat n (product_id it))) as [[[[|] [p|]]|e]|] eqn:Hl;
      cbn [success data] in H; try done.
    + destruct (verify_products cat (S n) rest _ _) as [e' tr'] eqn:Hrec.
      injection H as -> _. apply IH in Hrec as (-> & -> & Hpass).
      split_and!; [by rewrite <- app_assoc|done|].
      intros [|k] j Hk.
      * injection Hk as <-. rewrite Nat.add_0_r. left. by exists p.
      * replace (n + S k)%nat with (S n + k)%nat by lia. by apply Hpass.
    + destruct (verify_products cat (S n) rest _ _) as [e' tr'] eqn:Hrec.
      injection H as -> _. apply IH in Hrec as (-> & -> & Hpass).
      split_and!; [done..|].
      intros [|k] j Hk.
      * injection Hk as <-. rewrite Nat.add_0_r. right. by eexists.
      * replace (n + S k)%nat with (S n + k)%nat by lia. by apply Hpass.
    + destruct (verify_products cat (S n) rest _ _) as [e' tr'] eqn:Hrec.
      injection H as -> _. apply IH in Hrec as (-> & -> & Hpass).
      split_and!; [done..|].
      intros [|k] j Hk.
      * injection Hk as <-. rewrite Nat.add_0_r. right. by eexists.
      * replace (n + S k)%nat with (S n + k)%nat by lia. by apply Hpass.
Qed.



Lemma axios_get_pending w : axios_get None w = None → w = NoReply.
Proof. destruct w; cbn; [case_decide|..]; done. Qed.

(** The loop hangs only on a lookup the catalog never answers. *)
Lemma verify_products_pending_inv its : ∀ n t0 vs0 tr,
  verify_products cat n its t0 vs0 = (LoopPending, tr) →
  ∃ pre it post,
    its = pre ++ it :: post
    ∧ (∀ k j, pre !! k = Some j → passes cat (n + k) j)
    ∧ cat (n + length pre)%nat (product_id it) = NoReply.
Proof.
  induction its as [|it rest IH]; intros n t0 vs0 tr H; [done|].
  cbn [verify_products] in H.
  destruct (axios_get None (cat n (product_id it))) as [[[[|] [p|]]|e]|] eqn:Hl;
    cbn [success data] in H; try done.
  1-3: destruct (verify_products cat (S n) rest _ _) as [e' tr'] eqn:Hrec;
    injection H as -> _;
    apply IH in Hrec as (pre & j & post & -> & Hpre & Hno);
    exists (it :: pre), j, post; split_and!;
    [done| |by replace (n + length (it :: pre))%nat with (S n + length pre)%nat
              by (cbn; lia)];
    intros [|k] j' Hk;
    [injection Hk as <-; rewrite Nat.add_0_r
    |replace (n + S k)%nat with (S n + k)%nat by lia; by apply Hpre].
  - left. by exists p.
  - right. by eexists.
  - right. by eexists.
  - exists [], it, rest. split_and!; [done|done|].
    cbn. rewrite Nat.add_0_r. by apply axios_get_pending.
Qed.

End Loop.

(** ** The statements on the store *)


Lemma insert_order_Some now name email total db db1 o :
  insert_order now name email total db = (db1, Some o) →
  ∃ name' email' t,
    varchar 255 name = Some name' ∧ varchar 255 email = Some email'
    ∧ numeric_10_2_of_js total = Some t
    ∧ orders db !! orders_id_seq db = None
    ∧ o = OrderRow (orders_id_seq db) name' email' "pending" t now now
    ∧ db1 = Database (<[orders_id_seq db := o]> (orders db)) (order_items db)
                     (orders_id_seq db + 1) (order_items_id_seq db).
Proof.
  unfold insert_order.
  destruct (varchar 255 name) as [name'|]; [|done].
  destruct (varchar 255 email) as [email'|]; [|done].
  destruct (numeric_10_2_of_js total) as [t|]; [|done].
  destruct (decide (int4_range (orders_id_seq db))); [|done].
  destruct (orders db !! orders_id_seq db) eqn:Hfree; [done|].
  intros [= <- <-]. by exists name', email', t.
Qed.

Lemma insert_order_seq now name email total db db1 r :
  insert_order now name email total db = (db1, r) →
  orders_id_seq db ≤ orders_id_seq db1
  ∧ order_items_id_seq db1 = order_items_id_seq db
  ∧ (r = None → orders db1 = orders db ∧ order_items db1 = order_items db).
Proof.
  unfold insert_order. intros H.
  repeat case_match; simplify_eq; cbn; split_and!; (done || lia).
Qed.

Lemma insert_order_item_true now oid v db db1 :
  insert_order_item now oid v db = (db1, true) →
  ∃ r, row_of now oid v r ∧ i_id r = order_items_id_seq db
    ∧ is_Some (orders db !! oid)
    ∧ db1 = Database (orders db) (order_items db ++ [r]) (orders_id_seq db)
                     (order_items_id_seq db + 1).
Proof.
  unfold insert_order_item, int4_of_Z.
  destruct (decide (int4_range oid)); [|done].
  destruct (decide (int4_range (v_product_id v))); [|done].
  destruct (int4_of_js (v_quantity v)) as [qty|] eqn:Hq; [|done].
  destruct (varchar 255 (v_product_name v)) as [nm|] eqn:Hn; [|done].
  unfold numeric_10_2_of_cents.
  destruct (decide (numeric_10_2_range (v_price v))); [|done].
  destruct (decide (int4_range (order_items_id_seq db))); [|done].
  case_bool_decide as Hc; [|done]. destruct Hc as [_ Hfk].
  intros [= <-].
  exists (ItemRow (order_items_id_seq db) oid (v_product_id v) nm qty (v_price v) now).
  by repeat split.
Qed.

Lemma insert_order_item_seq now oid v db db1 b :
  insert_order_item now oid v db = (db1, b) →
  orders db1 = orders db ∧ orders_id_seq db1 = orders_id_seq db
  ∧ order_items_id_seq db ≤ order_items_id_seq db1.
Proof.
  unfold insert_order_item. intros H.
  repeat case_match; simplify_eq; cbn; split_and!; (done || lia).
Qed.


Lemma insert_order_items_true now oid vs : ∀ db db2 tr,
  insert_order_items now oid vs db = (db2, true, tr) →
  ∃ rows,
    Forall2 (row_of now oid) vs rows
    ∧ Forall (λ r, order_items_id_seq db ≤ i_id r
                   < order_items_id_seq db + Z.of_nat (length rows)
                   ∧ is_Some (orders db !! oid)) rows
    ∧ db2 = Database (orders db) (order_items db ++ rows) (orders_id_seq db)
                     (order_items_id_seq db + Z.of_nat (length rows)).
Proof.
  induction vs as [|v vs IH]; intros db db2 tr H.
  - cbn in H. injection H as <- <-. exists []. split_and!; [constructor..|].
    destruct db. cbn. by rewrite app_nil_r, Z.add_0_r.
  - cbn in H. destruct (insert_order_item now oid v db) as [db1 [|]] eqn:H1; [|done].
    destruct (insert_order_items now oid vs db1) as [[db2' ok] tr'] eqn:H2.
    simplify_eq.
    apply insert_order_item_true in H1 as (r & Hr & Hid & Hfk & ->).
    apply IH in H2 as (rows & Hrows & Hids & ->). cbn in *.
    exists (r :: rows). split_and!.
    + by constructor.
    + cbn [length]. constructor; [split; [lia|done]|].
      eapply Forall_impl; [exact Hids|]. cbn. intros r' [? ?]. split; [lia|done].
    + rewrite <- app_assoc. cbn [length app]. f_equal. lia.
Qed.

Lemma insert_order_items_seq now oid vs : ∀ db db2 b tr,
  insert_order_items now oid vs db = (db2, b, tr) →
  orders_id_seq db2 = orders_id_seq db
  ∧ order_items_id_seq db ≤ order_items_id_seq db2.
Proof.
  induction vs as [|v vs IH]; intros db db2 b tr H.
  - cbn in H. simplify_eq. split; [done|lia].
  - cbn in H. destruct (insert_order_item now oid v db) as [db1 [|]] eqn:H1.
    + destruct (insert_order_items now oid vs db1) as [[db2' ok] tr'] eqn:H2.
      simplify_eq. apply insert_order_item_seq in H1 as (_ & E1 & L1).
      apply IH in H2 as (E2 & L2). split; [congruence|lia].
    + simplify_eq. apply insert_order_item_seq in H1 as (_ & E1 & L1). done.
Qed.



(** ** What [POST /api/orders] leaves behind *)

Lemma valid_request_iff req :
  negb (truthy (customer_name req)) || negb (truthy (customer_email req))
    || no_items (items req) = false ↔ valid_request req.
Proof.
  unfold valid_request.
  destruct (truthy (customer_name req)), (truthy (customer_email req)),
    (no_items (items req)); cbn; intuition congruence.
Qed.

Lemma post_orders_store cat now req db :
  let out := post_orders cat now req db in
  (orders (store out) = orders db ∧ order_items (store out) = order_items db
   ∧ orders_id_seq db ≤ orders_id_seq (store out)
   ∧ order_items_id_seq db ≤ order_items_id_seq (store out)
   ∧ ∀ o rows, reply out ≠ Some (Response 201 (OrderWithItems o rows)))
  ∨ ∃ o newrows, created cat now req db o newrows.
Proof.
  cbn zeta. unfold created.
  destruct (negb (truthy (customer_name req)) || negb (truthy (customer_email req))
            || no_items (items req)) eqn:Hv.
  { left. unfold post_orders. rewrite Hv. cbn. split_and!; (done || lia). }
  apply valid_request_iff in Hv as Hvalid.
  destruct (verify_products cat 0 (default [] (items req)) (Finite 0) [])
    as [e tr] eqn:Hloop.
  destruct e as [total vs|pid|].
  2,3: left; unfold post_orders; rewrite Hv, Hloop; cbn; split_and!; (done || lia).
  destruct (insert_order now (default EmptyString (customer_name req))
              (default EmptyString (customer_email req)) total db)
    as [db1 [order|]] eqn:Hins.
  2: { left. unfold post_orders. rewrite Hv, Hloop, Hins.
       apply insert_order_seq in Hins as (E1 & E2 & _).
       cbn. split_and!; (done || lia). }
  apply insert_order_seq in Hins as Hseq. destruct Hseq as (E1 & E2 & _).
  destruct (insert_order_items now (o_id order) vs db1) as [[db2 [|]] tr2] eqn:Hits.
  2: { left. unfold post_orders. rewrite Hv, Hloop, Hins, Hits.
       apply insert_order_items_seq in Hits as (E3 & E4).
       cbn. split_and!; (done || lia). }
  right.
  assert (Hout : post_orders cat now req db =
    Outcome (Some (Response 201 (OrderWithItems order (select_items (o_id order) db2))))
            db2
            (Connect :: Begin :: tr ++ InsertOrder :: tr2 ++
               [Commit; SelectItems (o_id order); Release])).
  { unfold post_orders. by rewrite Hv, Hloop, Hins, Hits. }
  rewrite Hout. clear Hout. cbn [store reply].
  apply insert_order_Some in Hins as (name' & email' & t & Hn & He & Ht & Hfree & -> & ->).
  apply insert_order_items_true in Hits as (rows & Hrows & Hids & ->). cbn in *.
  exists (OrderRow (orders_id_seq db) name' email' "pending" t now now), rows.
  exists total, vs, tr, name', email', t.
  split_and!; try done.
  eapply Forall_impl; [exact Hids|]. cbn. intros r [? _]. done.
Qed.

(** ** The invariant holds in every reachable store *)

Lemma row_of_order_id now oid vs rows :
  Forall2 (row_of now oid) vs rows → Forall (λ r, i_order_id r = oid) rows.
Proof.
  induction 1 as [|v r vs rows Hr _ IH]; constructor; [|done].
  by destruct Hr.
Qed.

Lemma wf_unchanged db db' :
  wf_db db → orders db' = orders db → order_items db' = order_items db →
  orders_id_seq db ≤ orders_id_seq db' →
  order_items_id_seq db ≤ order_items_id_seq db' → wf_db db'.
Proof.
  intros (Ho & L1 & L2 & Hi) Eo Ei Lo Li. split_and!; [|lia|lia|].
  - intros id o. rewrite Eo. intros H. destruct (Ho id o H) as (? & ? & ?).
    split_and!; [done|lia|done].
  - rewrite Ei, Eo. eapply Forall_impl; [exact Hi|]. cbn. intros r [? ?].
    split; [done|lia].
Qed.

Lemma wf_created cat now req db o newrows :
  wf_db db → created cat now req db o newrows →
  wf_db (store (post_orders cat now req db)).
Proof.
  intros (Ho & L1 & L2 & Hi)
    (total & vs & tr & name' & email' & t & _ & _ & _ & _ & _ & Hfree
     & -> & Hrows & Hids & -> & _).
  split_and!; cbn; [|lia|lia|].
  - intros id o. destruct (decide (id = orders_id_seq db)) as [->|Hne].
    + rewrite lookup_insert_eq. intros [= <-]. cbn.
      split_and!; [done|lia|]. valid_status.
    + rewrite lookup_insert_ne by done. intros H.
      destruct (Ho id o H) as (? & ? & ?). split_and!; [done|lia|done].
  - apply Forall_app. split.
    + eapply Forall_impl; [exact Hi|]. cbn. intros r [[o' Hr] ?].
      split; [|lia]. destruct (decide (i_order_id r = orders_id_seq db)) as [E|Hne].
      * rewrite E, lookup_insert_eq. by eexists.
      * rewrite lookup_insert_ne by done. by eexists.
    + apply row_of_order_id in Hrows.
      rewrite Forall_forall in Hrows, Hids. apply Forall_forall. intros r Hr.
      rewrite (Hrows r Hr), lookup_insert_eq. split; [by eexists|].
      specialize (Hids r Hr). lia.
Qed.

Lemma wf_post_orders cat now req db :
  wf_db db → wf_db (store (post_orders cat now req db)).
Proof.
  intros Hwf. destruct (post_orders_store cat now req db) as [H|(o & rows & H)].
  - destruct H as (Eo & Ei & Lo & Li & _). by eapply wf_unchanged.
  - by eapply wf_created.
Qed.

Lemma varchar_valid_status s : s ∈ validStatuses → varchar 50 s = Some s.
Proof.
  unfold validStatuses. rewrite !elem_of_cons, elem_of_nil.
  intros [->|[->|[->|[->|[->|[]]]]]]; reflexivity.
Qed.

Lemma wf_put_status now id st db :
  wf_db db → wf_db (store (put_status now id st db)).
Proof.
  intros (Ho & L1 & L2 & Hi). unfold put_status.
  destruct (negb (truthy st) || negb (bool_decide (default EmptyString st ∈ validStatuses)))
    eqn:Hst; [done|].
  apply orb_false_iff in Hst as [_ Hin]. apply negb_false_iff in Hin.
  apply bool_decide_eq_true in Hin.
  unfold update_status. destruct (orders db !! id) as [o|] eqn:Hid; [|by case_decide].
  rewrite (varchar_valid_status _ Hin). cbn. split_and!; cbn; [|done|done|].
  - intros id' o'. destruct (decide (id' = id)) as [->|Hne].
    + rewrite lookup_insert_eq. intros [= <-]. cbn.
      destruct (Ho id o Hid) as (? & ? & ?). done.
    + rewrite lookup_insert_ne by done. apply Ho.
  - eapply Forall_impl; [exact Hi|]. cbn. intros r [[o' Hr] ?]. split; [|done].
    destruct (decide (i_order_id r = id)) as [E|Hne].
    + rewrite E, lookup_insert_eq. by eexists.
    + rewrite lookup_insert_ne by done. by eexists.
Qed.

Lemma wf_empty_database : wf_db empty_database.
Proof.
  split_and!; cbn; [intros id o; by rewrite lookup_empty|done|done|constructor].
Qed.

Lemma wf_init_database now db : wf_db db → wf_db (init_database now db).
Proof.
  intros (Ho & L1 & L2 & Hi). unfold init_database.
  case_bool_decide as Hsize; [|done].
  apply map_size_empty_inv in Hsize.
  assert (Hnil : order_items db = []).
  { destruct (order_items db) as [|r l]; [done|].
    apply Forall_cons in Hi as [[[o Hr] _] _]. by rewrite Hsize, lookup_empty in Hr. }
  rewrite Hsize, Hnil. split_and!; cbn; [|lia|lia|].
  - intros id o H.
    apply lookup_insert_Some in H as [[<- <-]|[? H]];
      [cbn; split_and!; [done|lia|valid_status]|].
    apply lookup_insert_Some in H as [[<- <-]|[? H]];
      [cbn; split_and!; [done|lia|valid_status]|].
    apply lookup_insert_Some in H as [[<- <-]|[? H]];
      [cbn; split_and!; [done|lia|valid_status]|].
    by rewrite lookup_empty in H.
  - repeat constructor; cbn; try lia.
    all: rewrite ?lookup_insert_is_Some; eauto 10 with lia.
Qed.

Lemma reachable_wf db : reachable db → wf_db db.
Proof.
  induction 1.
  - apply wf_init_database, wf_empty_database.
  - by apply wf_init_database.
  - by apply wf_post_orders.
  - by apply wf_put_status.
Qed.

(** In a well-formed store no item row refers to the next order id, so the
    rows read back for a new order are exactly the ones just inserted. *)
Lemma select_items_created now db o rows vs :
  wf_db db → Forall2 (row_of now (orders_id_seq db)) vs rows →
  select_items (orders_id_seq db)
    (Database (<[orders_id_seq db := o]> (orders db)) (order_items db ++ rows)
              (orders_id_seq db + 1)
              (order_items_id_seq db + Z.of_nat (length rows))) = rows.
Proof.
  intros (Ho & _ & _ & Hi) Hrows. unfold select_items. cbn. rewrite filter_app.
  assert (filter (λ r, i_order_id r = orders_id_seq db) (order_items db) = []) as ->.
  { induction Hi as [|r l [[o' Hr] _] _ IH]; [done|].
    rewrite filter_cons_False; [done|]. intros E. rewrite E in Hr.
    destruct (Ho _ _ Hr) as (_ & ? & _). lia. }
  cbn. apply row_of_order_id in Hrows.
  induction Hrows as [|r l Hr _ IH]; [done|].
  rewrite filter_cons_True by done. by rewrite IH.
Qed.

(** ** Order creation that commits *)


Lemma running_totals_last rows : ∀ acc b,
  Forall (λ t, Z.abs t ≤ b) (running_totals acc rows) → Z.abs acc ≤ b →
  Z.abs (acc + rows_total rows) ≤ b.
Proof.
  induction rows as [|r rows IH]; intros acc b Hall Hacc.
  - cbn. by rewrite Z.add_0_r.
  - cbn [running_totals] in Hall. apply Forall_cons in Hall as [Hhd Htl].
    change (rows_total (r :: rows)) with (i_price r * i_quantity r + rows_total rows).
    rewrite Z.add_assoc. by apply IH.
Qed.

(** With prices and quantities that are not negative, as the order form
    sends them, the rows are moderate as soon as there are at most 100000 of
    them and their exact total is at most 10^8. *)
Lemma moderate_nonneg rows :
  Forall (λ r, 0 ≤ i_price r ∧ 0 ≤ i_quantity r) rows →
  Z.of_nat (length rows) ≤ 100000 → rows_total rows ≤ 10 ^ 10 →
  moderate rows.
Proof.
  intros Hpos Hlen Htot.
  assert (Hrun : ∀ acc, 0 ≤ acc → acc + rows_total rows ≤ 10 ^ 10 →
            0 ≤ rows_total rows
            ∧ Forall (λ r, Z.abs (i_price r * i_quantity r) ≤ 10 ^ 10) rows
            ∧ Forall (λ t, Z.abs t ≤ 10 ^ 10) (running_totals acc rows)).
  { clear Hlen Htot. induction Hpos as [|r rows [Hp Hq] _ IH]; intros acc Hacc Hsum.
    - split_and!; [done|constructor|constructor].
    - change (rows_total (r :: rows))
        with (i_price r * i_quantity r + rows_total rows) in *.
      assert (Hline : 0 ≤ i_price r * i_quantity r) by nia.
      destruct (IH (acc + i_price r * i_quantity r)) as (Hnn & Hlines & Hruns);
        [lia|lia|].
      split_and!; [lia| |].
      + constructor; [lia|done].
      + cbn [running_totals]. constructor; [lia|done]. }
  destruct (Hrun 0) as (_ & Hlines & Hruns); [done|lia|]. done.
Qed.

(** The running total of the loop stays within [step_error] per row of the
    exact one, as long as the line totals and the exact running totals are
    at most 10^8. *)
Lemma running_total_close now oid vs rows :
  Forall2 (row_of now oid) vs rows →
  ∀ t0 acc d,
    (Qabs (t0 - inject_Z acc / 100) <= d)%Q →
    (d + inject_Z (Z.of_nat (length rows)) * step_error <= 4 # 1000)%Q →
    Forall (λ r, Z.abs (i_price r * i_quantity r) ≤ 10 ^ 10) rows →
    Forall (λ t, Z.abs t ≤ 10 ^ 10) (running_totals acc rows) →
    ∃ t, foldl (λ t v, js_add t (line_total v)) (Finite t0) vs = Finite t
         ∧ (Qabs (t - inject_Z (acc + rows_total rows) / 100)
            <= d + inject_Z (Z.of_nat (length rows)) * step_error)%Q.
Proof.
  induction 1 as [|v r vs rows Hr _ IH]; intros t0 acc d Ht Hd Hlines Hruns.
  - exists t0. split; [done|]. change (rows_total []) with 0.
    change (inject_Z (Z.of_nat (length (@nil order_item_row)))) with 0%Q.
    rewrite Z.add_0_r. lra.
  - apply Forall_cons in Hlines as [Hline Hlines].
    cbn [running_totals] in Hruns. apply Forall_cons in Hruns as [Hrun Hruns].
    destruct Hr as (_ & _ & _ & Hp & Hrange & Hq & _).
    apply int4_of_js_Some in Hq as (qz & Hqz & Eq & Hz).
    assert (Hlen : (inject_Z (Z.of_nat (length (r :: rows)))
                    == inject_Z (Z.of_nat (length rows)) + 1)%Q).
    { cbn [length]. rewrite Nat2Z.inj_succ, <- Z.add_1_r, inject_Z_plus. reflexivity. }
    rewrite Hlen in Hd.
    assert (Hn : (0 <= inject_Z (Z.of_nat (length rows)))%Q).
    { change 0%Q with (inject_Z 0). rewrite <- Zle_Qle. lia. }
    assert (Hstep : (0 <= inject_Z (Z.of_nat (length rows)) * step_error)%Q).
    { apply Qmult_le_0_compat; [exact Hn|by vm_compute]. }
    destruct (js_mul_close (i_price r) (i_quantity r) qz Hrange Hz Eq Hline)
      as (l & Hl & El).
    assert (Hab : (Qabs (inject_Z acc / 100 + inject_Z (i_price r * i_quantity r) / 100)
                   <= 100000000)%Q).
    { assert (E : (inject_Z acc / 100 + inject_Z (i_price r * i_quantity r) / 100
                   == inject_Z (acc + i_price r * i_quantity r) / 100)%Q).
      { rewrite inject_Z_plus. field. }
      rewrite E. apply Qabs_Qle_condition.
      assert (H1 : (inject_Z (- 10 ^ 10) <= inject_Z (acc + i_price r * i_quantity r))%Q)
        by (rewrite <- Zle_Qle; lia).
      assert (H2 : (inject_Z (acc + i_price r * i_quantity r) <= inject_Z (10 ^ 10))%Q)
        by (rewrite <- Zle_Qle; lia).
      change (inject_Z (- 10 ^ 10)) with (-10000000000)%Q in H1.
      change (inject_Z (10 ^ 10)) with 10000000000%Q in H2.
      split; [apply Qle_shift_div_l|apply Qle_shift_div_r]; lra. }
    destruct (js_add_close t0 l _ _ d Ht ltac:(unfold step_error in *; lra) El Hab)
      as (t' & Ht' & Et').
    assert (Eacc : (inject_Z acc / 100 + inject_Z (i_price r * i_quantity r) / 100
                    == inject_Z (acc + i_price r * i_quantity r) / 100)%Q).
    { rewrite inject_Z_plus. field. }
    rewrite Eacc in Et'.
    destruct (IH t' (acc + i_price r * i_quantity r) (d + step_error)%Q Et')
      as (t & Hfold & Et); [lra|done|done|].
    exists t. split.
    + cbn [foldl]. unfold line_total at 2. rewrite <- Hp, Hqz, Hl, Ht'. exact Hfold.
    + change (rows_total (r :: rows)) with (i_price r * i_quantity r + rows_total rows).
      rewrite Z.add_assoc, Hlen. lra.
Qed.

(** The total of an order whose creation committed is the total the loop
    computed in double arithmetic; it is the exact sum over the rows when
    these are moderate. *)
Lemma created_total cat now req db o rows :
  created cat now req db o rows →
  numeric_10_2_of_js (quoted_total cat (default [] (items req)))
    = Some (o_total_amount o)
  ∧ (moderate rows → o_total_amount o = Num (rows_total rows)).
Proof.
  intros (total & vs & tr & name' & email' & t & _ & Hloop & _ & _ & Ht & _
          & -> & Hrows & _). cbn [o_total_amount].
  apply verify_products_done in Hloop as (Hvs & -> & _). cbn in Hvs. subst vs.
  split; [exact Ht|]. intros (Hlen & Hlines & Hruns).
  destruct (running_total_close _ _ _ _ Hrows 0%Q 0 0%Q) as (x & Hx & Ex);
    [by vm_compute| |done|done|].
  { assert ((inject_Z (Z.of_nat (length rows)) <= inject_Z 100000)%Q)
      by (by rewrite <- Zle_Qle).
    change (inject_Z 100000) with 100000%Q in *. unfold step_error. lra. }
  rewrite Hx in Ht. cbn [numeric_10_2_of_js] in Ht.
  assert (Hsum : Z.abs (0 + rows_total rows) ≤ 10 ^ 10)
    by (by apply running_totals_last).
  rewrite Z.add_0_l in Hsum, Ex.
  unfold numeric_10_2_of_number in Ht.
  rewrite (stored_total_exact x (rows_total rows)) in Ht.
  - case_decide; [|done]. by injection Ht as <-.
  - assert ((inject_Z (Z.of_nat (length rows)) <= inject_Z 100000)%Q)
      by (by rewrite <- Zle_Qle).
    change (inject_Z 100000) with 100000%Q in *. unfold step_error in *. lra.
  - done.
Qed.





(** ** The scenarios of the specification, run on the model *)

(** Product 1 costs 29.99; two of them for alice@example.com give an order
    of 59.98 in status pending with one item of quantity 2 at 29.99. *)
Example alice_two_mice :
  reply (post_orders mouse_catalog 5 (alice [Item 1 2]) sample_store) =
    Some (Response 201
            (OrderWithItems
               (OrderRow 4 "Alice" "alice@example.com" "pending" (Num 5998) 5 5)
               [ItemRow 6 4 1 "Wireless Mouse" 2 2999 5])).
Proof. reflexivity. Qed.

(** Product 9999 does not exist: the request is rejected naming it, and the
    list of alice's orders is empty afterwards. *)
Example unknown_product_9999 :
  reply (post_orders mouse_catalog 5 (alice [Item 9999 1]) sample_store) =
    Some (Response 400 (Error "Product 9999 not found"))
  ∧ reply (get_orders None (Some "alice@example.com")
             (store (post_orders mouse_catalog 5 (alice [Item 9999 1]) sample_store)))
    = Some (Response 200 (OrderList 0 [])).
Proof. split; reflexivity. Qed.

(** [delivered] then back to [pending]: both updates are accepted. *)
Example delivered_then_pending :
  status <$> reply (put_status 7 2 (Some "delivered") sample_store) = Some 200
  ∧ status <$> reply (put_status 8 2 (Some "pending")
                        (store (put_status 7 2 (Some "delivered") sample_store)))
    = Some 200.
Proof. split; reflexivity. Qed.

(** Every envelope says [success: false]: an order without rows and with a
    total of 0 is stored and returned. *)
Example all_items_declined :
  reply (post_orders mouse_catalog 5 (alice [Item 10 1; Item 10 4]) sample_store) =
    Some (Response 201
            (OrderWithItems
               (OrderRow 4 "Alice" "alice@example.com" "pending" (Num 0) 5 5) []))
  ∧ orders (store (post_orders mouse_catalog 5 (alice [Item 10 1; Item 10 4])
                     sample_store)) !! 4
    = Some (OrderRow 4 "Alice" "alice@example.com" "pending" (Num 0) 5 5).
Proof. split; reflexivity. Qed.

(** A quantity beyond the [INTEGER] range, and a total beyond what
    [DECIMAL(10, 2)] holds (3334445 mice at 29.99 cost 100000005.55), are
    refused by the columns: the answer is 500 and both tables are as they
    were. An integer written with a decimal point and a fraction too small
    for a double to keep is read as that integer. *)
Example beyond_the_columns :
  reply (post_orders mouse_catalog 5 (alice [Item 1 2147483648]) sample_store)
    = Some (Response 500 (Error "Failed to create order"))
  ∧ reply (post_orders mouse_catalog 5 (alice [Item 1 3334445]) sample_store)
    = Some (Response 500 (Error "Failed to create order"))
  ∧ orders (store (post_orders mouse_catalog 5 (alice [Item 1 3334445]) sample_store))
    = orders sample_store
  ∧ reply (post_orders mouse_catalog 5
             (alice [Item 1 (20000000000000000001 # 10000000000000000000)])
             sample_store)
    = Some (Response 201
              (OrderWithItems
                 (OrderRow 4 "Alice" "alice@example.com" "pending" (Num 5998) 5 5)
                 [ItemRow 6 4 1 "Wireless Mouse" 2 2999 5])).
Proof. split_and!; vm_compute; reflexivity. Qed.

(** The third order of the sample data is inserted with a total of 449.98,
    while its two item rows add up to 499.97: the sum property is one of the
    orders created through [POST /api/orders], not of the sample rows. *)
Example sample_order_3_total :
  o_total_amount <$> orders sample_store !! 3 = Some (Num 44998)
  ∧ rows_total (select_items 3 sample_store) = 49997.
Proof. split; reflexivity. Qed.

(** ** Status updates *)

Lemma valid_status_truthy s : s ∈ validStatuses → truthy (Some s) = true.
Proof.
  unfold validStatuses. rewrite !elem_of_cons, elem_of_nil.
  intros [->|[->|[->|[->|[->|[]]]]]]; reflexivity.
Qed.

(** One accepted [setStatus] call on an existing order. *)
Lemma put_status_existing now id s o db :
  s ∈ validStatuses → orders db !! id = Some o →
  put_status now id (Some s) db =
    let row := OrderRow (o_id o) (o_customer_name o) (o_customer_email o) s
                        (o_total_amount o) (o_created_at o) now in
    Outcome (Some (Response 200 (OrderOnly row)))
            (Database (<[id := row]> (orders db)) (order_items db)
                      (orders_id_seq db) (order_items_id_seq db))
            [UpdateOrder id].
Proof.
  intros Hs Hid. unfold put_status.
  rewrite (valid_status_truthy _ Hs).
  change (default EmptyString (Some s)) with s.
  rewrite bool_decide_true by done. cbn [negb orb].
  unfold update_status. by rewrite Hid, (varchar_valid_status _ Hs).
Qed.

(** Re-applying its own status to an order, any number of times. *)
Lemma put_status_repeat_same times : ∀ db id o,
  o_status o ∈ validStatuses → orders db !! id = Some o →
  put_status_repeat times id (Some (o_status o)) db =
    ((λ now, Some (Response 200 (OrderOnly
        (OrderRow (o_id o) (o_customer_name o) (o_customer_email o) (o_status o)
                  (o_total_amount o) (o_created_at o) now)))) <$> times,
     match last times with
     | None => db
     | Some now =>
         Database
           (<[id := OrderRow (o_id o) (o_customer_name o) (o_customer_email o)
                             (o_status o) (o_total_amount o) (o_created_at o) now]>
              (orders db))
           (order_items db) (orders_id_seq db) (order_items_id_seq db)
     end).
Proof.
  induction times as [|now rest IH]; intros db id o Hs Hid; [done|].
  cbn [put_status_repeat].
  rewrite (put_status_existing now id _ o db Hs Hid). cbn zeta. cbn [store reply].
  set (row := OrderRow (o_id o) (o_customer_name o) (o_customer_email o)
                       (o_status o) (o_total_amount o) (o_created_at o) now).
  set (db1 := Database (<[id := row]> (orders db)) (order_items db)
                       (orders_id_seq db) (order_items_id_seq db)).
  assert (Hid1 : orders db1 !! id = Some row) by (cbn; apply lookup_insert_eq).
  pose proof (IH db1 id row Hs Hid1) as E.
  change (o_status row) with (o_status o) in E. rewrite E. cbn [fmap list_fmap].
  f_equal. destruct rest as [|now' rest]; [done|].
  change (last (now :: now' :: rest)) with (last (now' :: rest)).
  destruct (last (now' :: rest)) as [t|] eqn:Hlast; [|by apply last_None in Hlast].
  subst db1. cbn. by rewrite insert_insert_eq.
Qed.

(** C5. A creation request whose customer name or email is absent or empty,
    or whose item list is absent or empty, is answered 400 with the
    validation message; the store is left as it was, and the handler has
    only taken and released a connection: no transaction was begun and no
    catalog lookup was made. *)
Theorem post_orders_missing_fields cat now req db :
  missing_or_empty (customer_name req) ∨ missing_or_empty (customer_email req)
  ∨ items req = None ∨ items req = Some [] →
  let out := post_orders cat now req db in
  reply out = Some (Response 400 (Error "Customer name, email, and items are required"))
  ∧ store out = db
  ∧ trace out = [Connect; Release]
  ∧ (Begin ∉ trace out)
  ∧ (∀ pid, HttpGet pid ∉ trace out).
Proof.
  intros H out.
  assert (Hv : negb (truthy (customer_name req)) || negb (truthy (customer_email req))
               || no_items (items req) = true).
  { destruct H as [[->| ->]|[[->| ->]|[->| ->]]]; cbn;
      rewrite ?orb_true_r; reflexivity. }
  subst out. unfold post_orders. rewrite Hv. cbn.
  split_and!; [done..| |intros pid]; not_in_trace.
Qed.

Lemma post_orders_missing_fields_witness :
  (missing_or_empty (customer_name (CreateRequest (Some "Alice") (Some EmptyString)
                                      (Some [Item 1 2])))
   ∨ missing_or_empty (customer_email (CreateRequest (Some "Alice") (Some EmptyString)
                                         (Some [Item 1 2])))
   ∨ items (CreateRequest (Some "Alice") (Some EmptyString) (Some [Item 1 2])) = None
   ∨ items (CreateRequest (Some "Alice") (Some EmptyString) (Some [Item 1 2])) = Some [])
  ∧ store (post_orders mouse_catalog 5
             (CreateRequest (Some "Alice") (Some EmptyString) (Some [Item 1 2]))
             sample_store) = sample_store.
Proof.
  assert (H : missing_or_empty (customer_name (CreateRequest (Some "Alice")
                                  (Some EmptyString) (Some [Item 1 2])))
    ∨ missing_or_empty (customer_email (CreateRequest (Some "Alice") (Some EmptyString)
                                          (Some [Item 1 2])))
    ∨ items (CreateRequest (Some "Alice") (Some EmptyString) (Some [Item 1 2])) = None
    ∨ items (CreateRequest (Some "Alice") (Some EmptyString) (Some [Item 1 2])) = Some []).
  { right. left. right. reflexivity. }
  split; [exact H|].
  exact (proj1 (proj2 (post_orders_missing_fields mouse_catalog 5 _ sample_store H))).
Defined.

(** C6. A status update whose target is absent or is not one of
    [pending], [processing], [shipped], [delivered], [cancelled] is answered
    400 with the validation message without any statement being sent to the
    store, and the store, hence the order's status and every other field, is
    what it was. *)
Theorem put_status_unknown_rejected now id st db :
  (∀ s, st = Some s → s ∉ validStatuses) →
  put_status now id st db =
    Outcome
      (Some (Response 400
         (Error "Status must be one of: pending, processing, shipped, delivered, cancelled")))
      db [].
Proof.
  intros H. unfold put_status. destruct st as [s|]; [|reflexivity].
  change (default EmptyString (Some s)) with s. rewrite (bool_decide_false _ (H s eq_refl)).
  cbn [negb]. by rewrite orb_true_r.
Qed.

Lemma put_status_unknown_rejected_witness :
  (∀ s, Some "refunded" = Some s → s ∉ validStatuses)
  ∧ store (put_status 5 2 (Some "refunded") sample_store) = sample_store.
Proof.
  assert (H : ∀ s, Some "refunded" = Some s → s ∉ validStatuses).
  { intros s [= <-]. unfold validStatuses. not_in_trace. }
  split; [exact H|].
  exact (f_equal store (put_status_unknown_rejected 5 2 (Some "refunded") sample_store H)).
Defined.

(** C7. In a store the service can reach, setting an existing order's status
    to the status it already has, any number of times in a row, is answered
    200 every time, with the order as it was stored except that [updated_at]
    is the time of that call: same id, customer, status, total and creation
    time. At the end the store is the one before the calls with that order's
    [updated_at] set to the time of the last call; nothing else has changed,
    and nothing at all if no call was made. *)
Theorem put_status_same_status_idempotent db id o times :
  reachable db → orders db !! id = Some o →
  (put_status_repeat times id (Some (o_status o)) db).1
    = (λ now, Some (Response 200 (OrderOnly
         (OrderRow (o_id o) (o_customer_name o) (o_customer_email o) (o_status o)
                   (o_total_amount o) (o_created_at o) now)))) <$> times
  ∧ (put_status_repeat times id (Some (o_status o)) db).2
    = match last times with
      | None => db
      | Some now =>
          Database
            (<[id := OrderRow (o_id o) (o_customer_name o) (o_customer_email o)
                              (o_status o) (o_total_amount o) (o_created_at o) now]>
               (orders db))
            (order_items db) (orders_id_seq db) (order_items_id_seq db)
      end.
Proof.
  intros (Ho & _)%reachable_wf Hid. destruct (Ho _ _ Hid) as (_ & _ & Hs).
  by rewrite (put_status_repeat_same times db id o Hs Hid).
Qed.

Lemma put_status_same_status_idempotent_witness :
  reachable sample_store
  ∧ orders sample_store !! 2 =
      Some (OrderRow 2 "Jane Smith" "jane.smith@example.com" "shipped" (Num 8999) 0 0)
  ∧ (put_status_repeat [10; 20; 30] 2 (Some "shipped") sample_store).1
    = [Some (Response 200 (OrderOnly
         (OrderRow 2 "Jane Smith" "jane.smith@example.com" "shipped" (Num 8999) 0 10)));
       Some (Response 200 (OrderOnly
         (OrderRow 2 "Jane Smith" "jane.smith@example.com" "shipped" (Num 8999) 0 20)));
       Some (Response 200 (OrderOnly
         (OrderRow 2 "Jane Smith" "jane.smith@example.com" "shipped" (Num 8999) 0 30)))].
Proof.
  assert (H1 : reachable sample_store) by apply reach_init.
  assert (H2 : orders sample_store !! 2 =
      Some (OrderRow 2 "Jane Smith" "jane.smith@example.com" "shipped" (Num 8999) 0 0))
    by reflexivity.
  split_and!; [exact H1|exact H2|].
  exact (proj1 (put_status_same_status_idempotent sample_store 2 _ [10; 20; 30] H1 H2)).
Defined.

(** C10. A status update answered 200 has rewritten the target order with a
    new status and a new [updated_at] and nothing else: its id, customer
    name, customer email, total amount and creation time are the old ones,
    every other order is as before, the item rows (so also the items of the
    target order) are as before, and so are the sequences. *)
Theorem put_status_frame now id st db row :
  reply (put_status now id st db) = Some (Response 200 (OrderOnly row)) →
  ∃ o s,
    orders db !! id = Some o ∧ st = Some s
    ∧ row = OrderRow (o_id o) (o_customer_name o) (o_customer_email o) s
                     (o_total_amount o) (o_created_at o) now
    ∧ orders (store (put_status now id st db)) = <[id := row]> (orders db)
    ∧ (∀ id', id' ≠ id →
         orders (store (put_status now id st db)) !! id' = orders db !! id')
    ∧ order_items (store (put_status now id st db)) = order_items db
    ∧ (∀ oid, select_items oid (store (put_status now id st db)) = select_items oid db)
    ∧ orders_id_seq (store (put_status now id st db)) = orders_id_seq db
    ∧ order_items_id_seq (store (put_status now id st db)) = order_items_id_seq db.
Proof.
  unfold put_status.
  destruct (negb (truthy st) || negb (bool_decide (default EmptyString st ∈ validStatuses)))
    eqn:Hst; [done|].
  apply orb_false_iff in Hst as [Hst Hin].
  apply negb_false_iff, bool_decide_eq_true in Hin.
  destruct st as [s|]; [|done]. change (default EmptyString (Some s)) with s in *.
  unfold update_status. destruct (orders db !! id) as [o|] eqn:Hid; [|by case_decide].
  rewrite (varchar_valid_status _ Hin). cbn. intros [= <-].
  exists o, s. split_and!; try done.
  intros id' Hne. by rewrite lookup_insert_ne.
Qed.

Lemma put_status_frame_witness :
  reply (put_status 9 3 (Some "cancelled") sample_store) =
    Some (Response 200 (OrderOnly
      (OrderRow 3 "Bob Johnson" "bob.johnson@example.com" "cancelled" (Num 44998) 0 9)))
  ∧ order_items (store (put_status 9 3 (Some "cancelled") sample_store))
    = order_items sample_store.
Proof.
  assert (H : reply (put_status 9 3 (Some "cancelled") sample_store) =
    Some (Response 200 (OrderOnly
      (OrderRow 3 "Bob Johnson" "bob.johnson@example.com" "cancelled" (Num 44998) 0 9))))
    by reflexivity.
  split; [exact H|].
  destruct (put_status_frame 9 3 (Some "cancelled") sample_store _ H)
    as (o & s & _ & _ & _ & _ & _ & Hitems & _).
  exact Hitems.
Defined.

(** ** Theorems on order creation *)

Lemma post_orders_201_created cat now req db o rows :
  wf_db db →
  reply (post_orders cat now req db) = Some (Response 201 (OrderWithItems o rows)) →
  created cat now req db o rows.
Proof.
  intros Hwf Hreply.
  destruct (post_orders_store cat now req db) as [(_ & _ & _ & _ & Hno)|(o' & rows' & Hc)].
  { by destruct (Hno o rows). }
  pose proof Hc as (total & vs & tr & name' & email' & t & _ & _ & _ & _ & _ & _
                    & Eo & Hrows & _ & Hstore & Hrep).
  rewrite Hrep in Hreply. injection Hreply as <- <-.
  rewrite Hstore. rewrite Eo at 2. cbn [o_id].
  by rewrite (select_items_created now db _ _ _ Hwf Hrows).
Qed.

(** What holds of an order whose creation committed. *)
Lemma created_facts cat now req db o rows :
  wf_db db → created cat now req db o rows →
  reply (post_orders cat now req db) = Some (Response 201 (OrderWithItems o rows))
  ∧ Forall2 (row_of now (o_id o)) (kept cat 0 (default [] (items req))) rows
  ∧ numeric_10_2_of_js (quoted_total cat (default [] (items req)))
    = Some (o_total_amount o)
  ∧ (moderate rows → o_total_amount o = Num (rows_total rows))
  ∧ o_status o = "pending"
  ∧ orders (store (post_orders cat now req db)) !! o_id o = Some o
  ∧ select_items (o_id o) (store (post_orders cat now req db)) = rows
  ∧ (∀ k it, default [] (items req) !! k = Some it → passes cat k it).
Proof.
  intros Hwf Hc. pose proof (created_total _ _ _ _ _ _ Hc) as [Htotal Hexact].
  destruct Hc as (total & vs & tr & name' & email' & t & _ & Hloop & _ & _ & _ & _
                  & Eo & Hrows & _ & Hstore & Hrep).
  apply verify_products_done in Hloop as (Hvs & _ & Hpass). cbn in Hvs. subst vs.
  assert (Eid : o_id o = orders_id_seq db) by (by rewrite Eo).
  assert (Hsel : select_items (o_id o) (store (post_orders cat now req db)) = rows).
  { rewrite Hstore, Eid. by apply (select_items_created now db _ _ _ Hwf Hrows). }
  split_and!; try done.
  - by rewrite Hrep, Hsel.
  - by rewrite Eid.
  - by rewrite Eo.
  - rewrite Hstore, Eid. cbn. apply lookup_insert_eq.
Qed.




Lemma mouse_catalog_resolves k it :
  [Item 1 2] !! k = Some it →
  ∃ p, resolves_to mouse_catalog k it p ∧ catalog_product p.
Proof.
  destruct k as [|k]; [|done]. intros [= <-].
  exists (Product 1 "Wireless Mouse" 2999). split; [reflexivity|].
  unfold catalog_product, int4_range, numeric_10_2_range. cbn. lia.
Qed.


(** C2. When a creation request passes the handler's validation and the
    lookup of one of its items rejects (the catalog answers with a status
    outside 2xx, such as 404 or 500, or cannot be reached), every earlier
    lookup having passed, the handler answers 400 with the message
    "Product <id> not found" for that item's product id, rolls back, and
    leaves the store exactly as it was: no statement inserting an order or an
    item was sent, and reading any order or the order list afterwards gives
    what it gave before. *)
Theorem post_orders_lookup_failure cat now req db pre it post :
  valid_request req → items req = Some (pre ++ it :: post) →
  (∀ k j, pre !! k = Some j → passes cat k j) →
  fails cat (length pre) it →
  let out := post_orders cat now req db in
  reply out =
    Some (Response 400 (Error ("Product " +:+ pretty (product_id it) +:+ " not found")))
  ∧ store out = db
  ∧ trace out =
      Connect :: Begin :: ((λ j, HttpGet (product_id j)) <$> (pre ++ [it]))
        ++ [Rollback; Release]
  ∧ (∀ id, reply (get_order id (store out)) = reply (get_order id db))
  ∧ (∀ st email, reply (get_orders st email (store out)) = reply (get_orders st email db)).
Proof.
  intros Hvalid Hits Hpre Hfail out. subst out. unfold post_orders.
  apply valid_request_iff in Hvalid. rewrite Hvalid, Hits.
  change (default [] (Some (pre ++ it :: post))) with (pre ++ it :: post).
  rewrite (verify_products_caught cat pre it post 0 _ _ Hpre (or_introl Hfail)).
  cbn [reply store trace]. done.
Qed.

Lemma post_orders_lookup_failure_witness :
  valid_request (alice [Item 1 2; Item 9999 1])
  ∧ items (alice [Item 1 2; Item 9999 1]) = Some ([Item 1 2] ++ Item 9999 1 :: [])
  ∧ (∀ k j, [Item 1 2] !! k = Some j → passes mouse_catalog k j)
  ∧ fails mouse_catalog (length [Item 1 2]) (Item 9999 1)
  ∧ reply (post_orders mouse_catalog 5 (alice [Item 1 2; Item 9999 1]) sample_store) =
      Some (Response 400 (Error "Product 9999 not found"))
  ∧ store (post_orders mouse_catalog 5 (alice [Item 1 2; Item 9999 1]) sample_store)
    = sample_store.
Proof.
  assert (H1 : valid_request (alice [Item 1 2; Item 9999 1])) by done.
  assert (H2 : items (alice [Item 1 2; Item 9999 1])
               = Some ([Item 1 2] ++ Item 9999 1 :: [])) by reflexivity.
  assert (H3 : ∀ k j, [Item 1 2] !! k = Some j → passes mouse_catalog k j).
  { intros k j Hk. destruct (mouse_catalog_resolves k j Hk) as (p & Hp & _).
    left. by exists p. }
  assert (H4 : fails mouse_catalog (length [Item 1 2]) (Item 9999 1)).
  { exists (BadStatus 404). reflexivity. }
  pose proof (post_orders_lookup_failure mouse_catalog 5 _ sample_store
                [Item 1 2] (Item 9999 1) [] H1 H2 H3 H4) as (Hr & Hs & _).
  split_and!; [exact H1|exact H2|exact H3|exact H4|exact Hr|exact Hs].
Defined.

(** C3, as stated, fails: a lookup answered 404 (the product does not exist)
    and a lookup that cannot reach the catalog are different failures, yet
    the handler's whole outcome (response, store and operations) is the same
    for both. *)
Lemma failure_kinds_same_outcome :
  lookup mouse_catalog 0%nat (Item 9999 1) = Some (Rejected (BadStatus 404))
  ∧ lookup down_catalog 0%nat (Item 9999 1) = Some (Rejected NetworkError)
  ∧ kind_of (BadStatus 404) = NotFound
  ∧ kind_of NetworkError = Unavailable
  ∧ post_orders mouse_catalog 5 (alice [Item 9999 1]) sample_store
    = post_orders down_catalog 5 (alice [Item 9999 1]) sample_store
  ∧ reply (post_orders down_catalog 5 (alice [Item 9999 1]) sample_store)
    = Some (Response 400 (Error "Product 9999 not found")).
Proof. repeat split. Qed.

(** C3, amended. Whatever makes the first failing lookup reject (a 404, any
    other status outside 2xx, a transport error), order creation is rejected
    in the same way: two runs that differ only in the cause of that rejection
    have the same outcome, so the cause is not kept in the result. *)
Theorem post_orders_failure_cause_collapsed cat1 cat2 now req db pre it post :
  valid_request req → items req = Some (pre ++ it :: post) →
  (∀ k j, pre !! k = Some j → passes cat1 k j) →
  (∀ k j, pre !! k = Some j → passes cat2 k j) →
  fails cat1 (length pre) it → fails cat2 (length pre) it →
  post_orders cat1 now req db = post_orders cat2 now req db
  ∧ reply (post_orders cat1 now req db) =
      Some (Response 400 (Error ("Product " +:+ pretty (product_id it) +:+ " not found"))).
Proof.
  intros Hvalid Hits Hpre1 Hpre2 Hf1 Hf2. unfold post_orders.
  apply valid_request_iff in Hvalid. rewrite Hvalid, Hits.
  change (default [] (Some (pre ++ it :: post))) with (pre ++ it :: post).
  rewrite (verify_products_caught cat1 pre it post 0 _ _ Hpre1 (or_introl Hf1)).
  rewrite (verify_products_caught cat2 pre it post 0 _ _ Hpre2 (or_introl Hf2)).
  done.
Qed.

Lemma post_orders_failure_cause_collapsed_witness :
  valid_request (alice [Item 8 1])
  ∧ items (alice [Item 8 1]) = Some ([] ++ Item 8 1 :: [])
  ∧ (∀ k j, [] !! k = Some j → passes mouse_catalog k j)
  ∧ (∀ k j, [] !! k = Some j → passes (λ _ _, Reply 503 (Envelope false None)) k j)
  ∧ fails mouse_catalog (length (@nil item)) (Item 8 1)
  ∧ fails (λ _ _, Reply 503 (Envelope false None)) (length (@nil item)) (Item 8 1)
  ∧ post_orders mouse_catalog 5 (alice [Item 8 1]) sample_store
    = post_orders (λ _ _, Reply 503 (Envelope false None)) 5 (alice [Item 8 1])
        sample_store.
Proof.
  assert (H1 : valid_request (alice [Item 8 1])) by done.
  assert (H2 : items (alice [Item 8 1]) = Some ([] ++ Item 8 1 :: [])) by reflexivity.
  assert (H3 : ∀ c k (j : item), [] !! k = Some j → passes c k j) by done.
  assert (H4 : fails mouse_catalog (length (@nil item)) (Item 8 1)).
  { exists NetworkError. reflexivity. }
  assert (H5 : fails (λ _ _, Reply 503 (Envelope false None)) (length (@nil item))
                 (Item 8 1)).
  { exists (BadStatus 503). reflexivity. }
  split_and!; [exact H1|exact H2|exact (H3 _)|exact (H3 _)|exact H4|exact H5|].
  exact (proj1 (post_orders_failure_cause_collapsed mouse_catalog _ 5 _ sample_store
                  [] (Item 8 1) [] H1 H2 (H3 _) (H3 _) H4 H5)).
Defined.

(** With a timeout, as the gateway passes to its own [axios.get] calls, every
    call settles. *)
Lemma axios_get_timeout_settles ms w : is_Some (axios_get (Some ms) w).
Proof. destruct w; cbn; [case_decide|..]; by eexists. Qed.

(** C4, as stated, fails: the catalog does not answer the lookup of
    product 7, and the handler, having begun its transaction and sent the
    lookup, never sends a response; the same call made with a timeout of
    3000 ms would have rejected. *)
Lemma post_orders_unanswered_lookup :
  mouse_catalog 0%nat 7 = NoReply
  ∧ post_orders mouse_catalog 5 (alice [Item 7 1]) sample_store
    = Outcome None sample_store [Connect; Begin; HttpGet 7]
  ∧ lookup mouse_catalog 0%nat (Item 7 1) = axios_get None NoReply
  ∧ axios_get None NoReply = None
  ∧ axios_get (Some 3000%N) NoReply = Some (Rejected (TimeoutExceeded 3000)).
Proof. repeat split. Qed.

(** C4, amended. The lookups of order creation carry no timeout; each is
    awaited until the catalog answers or the connection fails. The handler
    sends no response exactly when the catalog never answers one of the
    lookups it makes: in that case the transaction it began is neither
    committed nor rolled back, the connection is not released, and the
    committed store is as it was. *)
Theorem post_orders_waits_for_catalog cat now req db :
  (reply (post_orders cat now req db) = None →
   ∃ pre it post,
     items req = Some (pre ++ it :: post)
     ∧ (∀ k j, pre !! k = Some j → passes cat k j)
     ∧ cat (length pre) (product_id it) = NoReply)
  ∧ (∀ pre it post,
       valid_request req → items req = Some (pre ++ it :: post) →
       (∀ k j, pre !! k = Some j → passes cat k j) →
       cat (length pre) (product_id it) = NoReply →
       post_orders cat now req db =
         Outcome None db
           (Connect :: Begin :: ((λ j, HttpGet (product_id j)) <$> (pre ++ [it])))).
Proof.
  split.
  - unfold post_orders.
    destruct (negb (truthy (customer_name req)) || negb (truthy (customer_email req))
              || no_items (items req)) eqn:Hv; [done|].
    destruct (verify_products cat 0 (default [] (items req)) (Finite 0) [])
      as [e tr] eqn:Hloop.
    destruct e as [total vs|pid|].
    + destruct (insert_order now _ _ total db) as [db1 [order|]]; [|done].
      by destruct (insert_order_items now (o_id order) vs db1) as [[db2 [|]] tr2].
    + done.
    + intros _. apply verify_products_pending_inv in Hloop
        as (pre & it & post & Hits & Hpre & Hno).
      exists pre, it, post. split_and!; [|done..].
      destruct (items req) as [its|]; [|by destruct pre]. cbn in Hits. by rewrite Hits.
  - intros pre it post Hvalid Hits Hpre Hno. unfold post_orders.
    apply valid_request_iff in Hvalid. rewrite Hvalid, Hits.
    change (default [] (Some (pre ++ it :: post))) with (pre ++ it :: post).
    rewrite (verify_products_pending cat pre it post 0 _ _ Hpre); [done|].
    unfold lookup. cbn. by rewrite Hno.
Qed.

Lemma post_orders_waits_for_catalog_witness :
  valid_request (alice [Item 1 2; Item 7 1])
  ∧ items (alice [Item 1 2; Item 7 1]) = Some ([Item 1 2] ++ Item 7 1 :: [])
  ∧ (∀ k j, [Item 1 2] !! k = Some j → passes mouse_catalog k j)
  ∧ mouse_catalog (length [Item 1 2]) 7 = NoReply
  ∧ post_orders mouse_catalog 5 (alice [Item 1 2; Item 7 1]) sample_store
    = Outcome None sample_store [Connect; Begin; HttpGet 1; HttpGet 7].
Proof.
  assert (H1 : valid_request (alice [Item 1 2; Item 7 1])) by done.
  assert (H2 : items (alice [Item 1 2; Item 7 1])
               = Some ([Item 1 2] ++ Item 7 1 :: [])) by reflexivity.
  assert (H3 : ∀ k j, [Item 1 2] !! k = Some j → passes mouse_catalog k j).
  { intros k j Hk. destruct (mouse_catalog_resolves k j Hk) as (p & Hp & _).
    left. by exists p. }
  assert (H4 : mouse_catalog (length [Item 1 2]) 7 = NoReply) by reflexivity.
  split_and!; [exact H1|exact H2|exact H3|exact H4|].
  exact (proj2 (post_orders_waits_for_catalog mouse_catalog 5 _ sample_store)
           [Item 1 2] (Item 7 1) [] H1 H2 H3 H4).
Defined.







(** * Further properties of the order service *)

(** ** Reading back what was written *)

(** X1. In a store the service can reach, an order that [POST /api/orders]
    has answered with 201 is read back by [GET /api/orders/:id], under the id
    it was given, as the same order with the same item rows. *)
Theorem post_orders_then_get_order cat now req db o rows :
  reachable db →
  reply (post_orders cat now req db) = Some (Response 201 (OrderWithItems o rows)) →
  reply (get_order (o_id o) (store (post_orders cat now req db)))
    = Some (Response 200 (OrderWithItems o rows)).
Proof.
  intros Hwf%reachable_wf Hreply.
  apply (post_orders_201_created _ _ _ _ _ _ Hwf) in Hreply.
  destruct (created_facts _ _ _ _ _ _ Hwf Hreply) as (_ & _ & _ & _ & _ & Hin & Hsel & _).
  unfold get_order. rewrite Hin. cbn. by rewrite Hsel.
Qed.

Lemma post_orders_then_get_order_witness :
  reachable sample_store
  ∧ reply (post_orders mouse_catalog 5 (alice [Item 1 2]) sample_store) =
      Some (Response 201
              (OrderWithItems
                 (OrderRow 4 "Alice" "alice@example.com" "pending" (Num 5998) 5 5)
                 [ItemRow 6 4 1 "Wireless Mouse" 2 2999 5]))
  ∧ reply (get_order 4 (store (post_orders mouse_catalog 5 (alice [Item 1 2])
                                 sample_store)))
    = Some (Response 200
              (OrderWithItems
                 (OrderRow 4 "Alice" "alice@example.com" "pending" (Num 5998) 5 5)
                 [ItemRow 6 4 1 "Wireless Mouse" 2 2999 5])).
Proof.
  assert (H1 : reachable sample_store) by apply reach_init.
  assert (H2 : reply (post_orders mouse_catalog 5 (alice [Item 1 2]) sample_store) =
      Some (Response 201
              (OrderWithItems
                 (OrderRow 4 "Alice" "alice@example.com" "pending" (Num 5998) 5 5)
                 [ItemRow 6 4 1 "Wireless Mouse" 2 2999 5]))) by reflexivity.
  split_and!; [exact H1|exact H2|].
  exact (post_orders_then_get_order mouse_catalog 5 _ sample_store _ _ H1 H2).
Defined.

Lemma select_items_other now oid id items rows vs :
  id ≠ oid → Forall2 (row_of now oid) vs rows →
  filter (λ r, i_order_id r = id) (items ++ rows)
    = filter (λ r, i_order_id r = id) items.
Proof.
  intros Hne Hrows. rewrite filter_app.
  assert (filter (λ r, i_order_id r = id) rows = []) as ->; [|by rewrite app_nil_r].
  apply row_of_order_id in Hrows.
  induction Hrows as [|r l Hr _ IH]; [done|].
  rewrite filter_cons_False; [done|]. cbn. congruence.
Qed.

(** X2. A creation answered 201 takes an id no order had, appends its item
    rows after the rows that were there, and leaves every other order as it
    was: reading any other id gives what it gave before. *)
Theorem post_orders_frame cat now req db o rows :
  reachable db →
  reply (post_orders cat now req db) = Some (Response 201 (OrderWithItems o rows)) →
  orders db !! o_id o = None
  ∧ (∀ id o', orders db !! id = Some o' → id < o_id o)
  ∧ (∀ id, id ≠ o_id o →
       orders (store (post_orders cat now req db)) !! id = orders db !! id)
  ∧ order_items (store (post_orders cat now req db)) = order_items db ++ rows
  ∧ (∀ id, id ≠ o_id o →
       reply (get_order id (store (post_orders cat now req db)))
         = reply (get_order id db)).
Proof.
  intros Hwf%reachable_wf Hreply.
  apply (post_orders_201_created _ _ _ _ _ _ Hwf) in Hreply.
  destruct Hreply as (total & vs & tr & name' & email' & t & _ & _ & _ & _ & _ & Hfree
                      & Eo & Hrows & _ & Hstore & _).
  assert (Eid : o_id o = orders_id_seq db) by (by rewrite Eo).
  rewrite Hstore, Eid. cbn. split_and!; [done| | |done|].
  - intros id o' Hid. destruct Hwf as (Ho & _). by destruct (Ho _ _ Hid) as (_ & ? & _).
  - intros id Hne. by rewrite lookup_insert_ne.
  - intros id Hne. unfold get_order. cbn [orders].
    rewrite lookup_insert_ne by done.
    destruct (orders db !! id); [|by case_decide]. unfold select_items. cbn.
    by rewrite (select_items_other now _ id _ _ _ Hne Hrows).
Qed.

Lemma post_orders_frame_witness :
  reachable sample_store
  ∧ reply (post_orders mouse_catalog 5 (alice [Item 1 2]) sample_store) =
      Some (Response 201
              (OrderWithItems
                 (OrderRow 4 "Alice" "alice@example.com" "pending" (Num 5998) 5 5)
                 [ItemRow 6 4 1 "Wireless Mouse" 2 2999 5]))
  ∧ orders sample_store !! 4 = None.
Proof.
  assert (H1 : reachable sample_store) by apply reach_init.
  assert (H2 : reply (post_orders mouse_catalog 5 (alice [Item 1 2]) sample_store) =
      Some (Response 201
              (OrderWithItems
                 (OrderRow 4 "Alice" "alice@example.com" "pending" (Num 5998) 5 5)
                 [ItemRow 6 4 1 "Wireless Mouse" 2 2999 5]))) by reflexivity.
  split_and!; [exact H1|exact H2|].
  exact (proj1 (post_orders_frame mouse_catalog 5 _ sample_store _ _ H1 H2)).
Defined.

(** X3. Order creation is all or nothing, for every request, catalog and
    store: either the handler answers 201 with the order, or both tables are
    exactly what they were. *)
Theorem post_orders_all_or_nothing cat now req db :
  (∃ o rows,
     reply (post_orders cat now req db) = Some (Response 201 (OrderWithItems o rows)))
  ∨ (orders (store (post_orders cat now req db)) = orders db
     ∧ order_items (store (post_orders cat now req db)) = order_items db).
Proof.
  destruct (post_orders_store cat now req db) as [(Eo & Ei & _)|(o & rows & Hc)].
  - by right.
  - left. destruct Hc as (? & ? & ? & ? & ? & ? & _ & _ & _ & _ & _ & _ & _ & _ & _ & _ & Hrep).
    by eexists _, _.
Qed.

(** ** The transaction and the connection *)

Lemma verify_products_trace cat its : ∀ n total vs e tr,
  verify_products cat n its total vs = (e, tr) →
  Forall (λ ev, ∃ pid, ev = HttpGet pid) tr.
Proof.
  induction its as [|it rest IH]; intros n total vs e tr H.
  - cbn in H. injection H as _ <-. constructor.
  - cbn [verify_products] in H.
    destruct (axios_get None (cat n (product_id it))) as [[[[|] [p|]]|err]|];
      cbn [success data] in H.
    1,3,4: destruct (verify_products cat (S n) rest _ _) as [e' tr'] eqn:Hrec;
      injection H as _ <-; constructor; [by eexists|by eapply IH].
    all: injection H as _ <-; repeat constructor; by eexists.
Qed.

Lemma insert_order_items_trace now oid vs : ∀ db db2 b tr,
  insert_order_items now oid vs db = (db2, b, tr) →
  Forall (λ ev, ev = InsertOrderItem) tr.
Proof.
  induction vs as [|v vs IH]; intros db db2 b tr H.
  - cbn in H. injection H as _ _ <-. constructor.
  - cbn in H. destruct (insert_order_item now oid v db) as [db1 [|]].
    + destruct (insert_order_items now oid vs db1) as [[db2' ok] tr'] eqn:Hrec.
      injection H as _ _ <-. constructor; [done|by eapply IH].
    + injection H as _ _ <-. by repeat constructor.
Qed.

Lemma not_in_lookups ev tr :
  Forall (λ ev, ∃ pid, ev = HttpGet pid) tr → (∀ pid, ev ≠ HttpGet pid) → ev ∉ tr.
Proof.
  intros Hall Hev Hin. rewrite Forall_forall in Hall.
  destruct (Hall ev Hin) as [pid ->]. by apply (Hev pid).
Qed.

Lemma not_in_inserts ev tr :
  Forall (λ ev, ev = InsertOrderItem) tr → ev ≠ InsertOrderItem → ev ∉ tr.
Proof.
  intros Hall Hev Hin. rewrite Forall_forall in Hall. by apply Hev, Hall.
Qed.

(** X4. Whenever [POST /api/orders] answers, the connection it took first is
    released last; it has sent [COMMIT] exactly when it answers 201, and
    [ROLLBACK] exactly when it had begun a transaction and answers anything
    else; it never sends both. Without a [BEGIN] the answer is 400. *)
Theorem post_orders_transaction_discipline cat now req db r :
  reply (post_orders cat now req db) = Some r →
  head (trace (post_orders cat now req db)) = Some Connect
  ∧ last (trace (post_orders cat now req db)) = Some Release
  ∧ (Commit ∈ trace (post_orders cat now req db) ↔ status r = 201)
  ∧ (Rollback ∈ trace (post_orders cat now req db)
     ↔ Begin ∈ trace (post_orders cat now req db) ∧ status r ≠ 201)
  ∧ (Begin ∉ trace (post_orders cat now req db) → status r = 400).
Proof.
  unfold post_orders.
  destruct (negb (truthy (customer_name req)) || negb (truthy (customer_email req))
            || no_items (items req)).
  { intros [= <-]. cbn. split_and!; [done|done|split|split|done].
    - not_in_trace.
    - done.
    - not_in_trace.
    - intros [H _]. revert H. not_in_trace. }
  destruct (verify_products cat 0 (default [] (items req)) (Finite 0) [])
    as [e tr] eqn:Hloop.
  apply verify_products_trace in Hloop.
  assert (HC : Commit ∉ tr) by (by apply not_in_lookups).
  assert (HR : Rollback ∉ tr) by (by apply not_in_lookups).
  destruct e as [total vs|pid|]; [|intros [= <-]|done].
  - destruct (insert_order now _ _ total db) as [db1 [order|]].
    + destruct (insert_order_items now (o_id order) vs db1) as [[db2 [|]] tr2] eqn:Hits;
        apply insert_order_items_trace in Hits;
        assert (HC2 : Commit ∉ tr2) by (by apply not_in_inserts);
        assert (HR2 : Rollback ∉ tr2) by (by apply not_in_inserts);
        intros [= <-]; cbn [reply trace status head].
      * split_and!; [done| | | |].
        -- rewrite !app_comm_cons, (app_assoc _ (InsertOrder :: tr2)).
           change [Commit; SelectItems (o_id order); Release]
             with ([Commit; SelectItems (o_id order)] ++ [Release]).
           by rewrite app_assoc, last_snoc.
        -- split; [done|]. intros _.
           rewrite !elem_of_cons, elem_of_app, !elem_of_cons, elem_of_app, !elem_of_cons.
           tauto.
        -- rewrite !elem_of_cons, elem_of_app, !elem_of_cons, elem_of_app,
             !elem_of_cons, elem_of_nil.
           split; [|by intros [_ ?]].
           intros [?|[?|[?|[?|[?|[?|[?|[?|[]]]]]]]]]; done.
        -- intros H. exfalso. apply H. rewrite !elem_of_cons. tauto.
      * split_and!; [done| | | |].
        -- rewrite !app_comm_cons, (app_assoc _ (InsertOrder :: tr2)).
           change [Rollback; Release] with ([Rollback] ++ [Release]).
           by rewrite app_assoc, last_snoc.
        -- rewrite !elem_of_cons, elem_of_app, !elem_of_cons, elem_of_app,
             !elem_of_cons, elem_of_nil.
           split; [|done].
           intros [?|[?|[?|[?|[?|[?|[?|[]]]]]]]]; done.
        -- rewrite !elem_of_cons, elem_of_app, !elem_of_cons, elem_of_app,
             !elem_of_cons. split; [|tauto]. intros _. split; [tauto|done].
        -- intros H. exfalso. apply H. rewrite !elem_of_cons. tauto.
    + intros [= <-]; cbn [reply trace status head]. split_and!; [done| | | |].
      * rewrite !app_comm_cons.
        change [InsertOrder; Rollback; Release]
          with ([InsertOrder; Rollback] ++ [Release]).
        by rewrite app_assoc, last_snoc.
      * rewrite !elem_of_cons, elem_of_app, !elem_of_cons, elem_of_nil.
        split; [|done]. intros [?|[?|[?|[?|[?|[?|[]]]]]]]; done.
      * rewrite !elem_of_cons, elem_of_app, !elem_of_cons.
        split; [|tauto]. intros _. split; [tauto|done].
      * intros H. exfalso. apply H. rewrite !elem_of_cons. tauto.
  - cbn [reply trace status head product_not_found]. split_and!; [done| | | |].
    + rewrite !app_comm_cons. change [Rollback; Release] with ([Rollback] ++ [Release]).
      by rewrite app_assoc, last_snoc.
    + rewrite !elem_of_cons, elem_of_app, !elem_of_cons, elem_of_nil.
      split; [|done]. intros [?|[?|[?|[?|[?|[]]]]]]; done.
    + rewrite !elem_of_cons, elem_of_app, !elem_of_cons. split; [|tauto].
      intros _. split; [tauto|done].
    + done.
Qed.

Lemma post_orders_transaction_discipline_witness :
  reply (post_orders mouse_catalog 5 (alice [Item 1 (3 # 2)]) sample_store)
    = Some (Response 500 (Error "Failed to create order"))
  ∧ last (trace (post_orders mouse_catalog 5 (alice [Item 1 (3 # 2)]) sample_store))
    = Some Release.
Proof.
  assert (H : reply (post_orders mouse_catalog 5 (alice [Item 1 (3 # 2)]) sample_store)
    = Some (Response 500 (Error "Failed to create order"))) by reflexivity.
  split; [exact H|].
  exact (proj1 (proj2 (post_orders_transaction_discipline mouse_catalog 5 _
                         sample_store _ H))).
Defined.

(** ** Status updates: transitions, unknown ids, reading back *)

(** X5. No transition table is enforced: on an existing order any of the five
    statuses is accepted whatever the current status is, and of two updates
    in a row the second is the one that stays; the customer, the total and
    the creation time are as they were. *)
Theorem put_status_any_transition now1 now2 id s1 s2 o db :
  s1 ∈ validStatuses → s2 ∈ validStatuses → orders db !! id = Some o →
  let out1 := put_status now1 id (Some s1) db in
  let out2 := put_status now2 id (Some s2) (store out1) in
  status <$> reply out1 = Some 200
  ∧ status <$> reply out2 = Some 200
  ∧ orders (store out1) !! id
    = Some (OrderRow (o_id o) (o_customer_name o) (o_customer_email o) s1
                     (o_total_amount o) (o_created_at o) now1)
  ∧ orders (store out2) !! id
    = Some (OrderRow (o_id o) (o_customer_name o) (o_customer_email o) s2
                     (o_total_amount o) (o_created_at o) now2).
Proof.
  intros H1 H2 Hid out1 out2. subst out1 out2.
  rewrite (put_status_existing now1 id s1 o db H1 Hid). cbn zeta. cbn [store reply].
  set (row := OrderRow (o_id o) (o_customer_name o) (o_customer_email o) s1
                       (o_total_amount o) (o_created_at o) now1).
  set (db1 := Database (<[id := row]> (orders db)) (order_items db)
                       (orders_id_seq db) (order_items_id_seq db)).
  assert (Hid1 : orders db1 !! id = Some row) by apply lookup_insert_eq.
  rewrite (put_status_existing now2 id s2 row db1 H2 Hid1). cbn.
  split_and!; [done|done|apply lookup_insert_eq|apply lookup_insert_eq].
Qed.

Lemma put_status_any_transition_witness :
  "pending" ∈ validStatuses ∧ "processing" ∈ validStatuses
  ∧ orders sample_store !! 1 =
      Some (OrderRow 1 "John Doe" "john.doe@example.com" "delivered" (Num 132998) 0 0)
  ∧ orders (store (put_status 8 1 (Some "processing")
                     (store (put_status 7 1 (Some "pending") sample_store)))) !! 1
    = Some (OrderRow 1 "John Doe" "john.doe@example.com" "processing" (Num 132998) 0 8).
Proof.
  assert (H1 : "pending" ∈ validStatuses) by valid_status.
  assert (H2 : "processing" ∈ validStatuses) by valid_status.
  assert (H3 : orders sample_store !! 1 =
      Some (OrderRow 1 "John Doe" "john.doe@example.com" "delivered" (Num 132998) 0 0))
    by reflexivity.
  split_and!; [exact H1|exact H2|exact H3|].
  exact (proj2 (proj2 (proj2 (put_status_any_transition 7 8 1 _ _ _ sample_store
                                H1 H2 H3)))).
Defined.

(** X6. A status update with a known status for an id no order has: the
    statement is sent and the store is unchanged; the answer is 404
    "Order not found" when the id is in the [INTEGER] range, and 500
    "Failed to update order status" when it is beyond it. *)
Theorem put_status_unknown_order now id s db :
  s ∈ validStatuses → orders db !! id = None →
  put_status now id (Some s) db
    = Outcome
        (Some (if decide (int4_range id)
               then Response 404 (Error "Order not found")
               else Response 500 (Error "Failed to update order status")))
        db [UpdateOrder id].
Proof.
  intros Hs Hid. unfold put_status. rewrite (valid_status_truthy _ Hs).
  change (default EmptyString (Some s)) with s.
  rewrite bool_decide_true by done. cbn [negb orb].
  unfold update_status. rewrite Hid. by case_decide.
Qed.

Lemma put_status_unknown_order_witness :
  "shipped" ∈ validStatuses ∧ orders sample_store !! 99 = None
  ∧ orders sample_store !! 2147483648 = None
  ∧ reply (put_status 5 99 (Some "shipped") sample_store)
    = Some (Response 404 (Error "Order not found"))
  ∧ reply (put_status 5 2147483648 (Some "shipped") sample_store)
    = Some (Response 500 (Error "Failed to update order status")).
Proof.
  assert (H1 : "shipped" ∈ validStatuses) by valid_status.
  assert (H2 : orders sample_store !! 99 = None) by reflexivity.
  assert (H3 : orders sample_store !! 2147483648 = None) by reflexivity.
  split_and!; [exact H1|exact H2|exact H3| |].
  - exact (f_equal reply (put_status_unknown_order 5 99 _ sample_store H1 H2)).
  - exact (f_equal reply (put_status_unknown_order 5 2147483648 _ sample_store H1 H3)).
Defined.

(** X7. After a status update answered 200, [GET /api/orders/:id] returns the
    row the update returned, with the item rows the order had before. *)
Theorem put_status_then_get_order now id st db row :
  reply (put_status now id st db) = Some (Response 200 (OrderOnly row)) →
  reply (get_order id (store (put_status now id st db)))
    = Some (Response 200 (OrderWithItems row (select_items id db))).
Proof.
  unfold put_status.
  destruct (negb (truthy st) || negb (bool_decide (default EmptyString st ∈ validStatuses)))
    eqn:Hst; [done|].
  apply orb_false_iff in Hst as [_ Hin].
  apply negb_false_iff, bool_decide_eq_true in Hin.
  unfold update_status. destruct (orders db !! id) as [o|] eqn:Hid; [|by case_decide].
  rewrite (varchar_valid_status _ Hin). cbn. intros [= <-].
  unfold get_order. cbn. by rewrite lookup_insert_eq.
Qed.

Lemma put_status_then_get_order_witness :
  reply (put_status 9 3 (Some "cancelled") sample_store) =
    Some (Response 200 (OrderOnly
      (OrderRow 3 "Bob Johnson" "bob.johnson@example.com" "cancelled" (Num 44998) 0 9)))
  ∧ reply (get_order 3 (store (put_status 9 3 (Some "cancelled") sample_store)))
    = Some (Response 200 (OrderWithItems
        (OrderRow 3 "Bob Johnson" "bob.johnson@example.com" "cancelled" (Num 44998) 0 9)
        (select_items 3 sample_store))).
Proof.
  assert (H : reply (put_status 9 3 (Some "cancelled") sample_store) =
    Some (Response 200 (OrderOnly
      (OrderRow 3 "Bob Johnson" "bob.johnson@example.com" "cancelled" (Num 44998) 0 9))))
    by reflexivity.
  split; [exact H|].
  exact (put_status_then_get_order 9 3 _ sample_store _ H).
Defined.

(** ** The order list *)




(** ** Starting the service *)

(** X9. [initDatabase] inserts the sample rows at most once: run again, at
    any later time, on a store it has already initialised, it changes
    nothing. *)
Theorem init_database_idempotent now1 now2 db :
  init_database now2 (init_database now1 db) = init_database now1 db.
Proof.
  assert (Hne : ∀ now d, size (orders d) ≠ 0%nat → init_database now d = d).
  { intros now d Hd. unfold init_database. by rewrite bool_decide_false. }
  destruct (decide (size (orders db) = 0%nat)) as [Hz|Hnz].
  - apply Hne. unfold init_database. rewrite bool_decide_true by done.
    cbn. intros He%map_size_empty_inv.
    apply (f_equal (λ m, m !! (orders_id_seq db + 2))) in He.
    by rewrite lookup_insert_eq, lookup_empty in He.
  - rewrite (Hne now1 db Hnz). by apply Hne.
Qed.

(** X10. Every store the service can reach, through any sequence of starts,
    creations and status updates with any catalog, keeps the tables
    consistent: an order is stored under its own id, below the next id of the
    sequence, with one of the five statuses, and every item row refers to an
    order that is stored. *)
Theorem reachable_store_consistent db :
  reachable db →
  (∀ id o, orders db !! id = Some o →
     o_id o = id ∧ id < orders_id_seq db ∧ o_status o ∈ validStatuses)
  ∧ (∀ r, r ∈ order_items db →
       ∃ o, orders db !! i_order_id r = Some o ∧ o_id o = i_order_id r).
Proof.
  intros (Ho & _ & _ & Hi)%reachable_wf. split; [done|].
  intros r Hr. rewrite Forall_forall in Hi. destruct (Hi r Hr) as [[o Hor] _].
  exists o. split; [done|]. by destruct (Ho _ _ Hor).
Qed.

Lemma reachable_store_consistent_witness :
  reachable (store (put_status 9 2 (Some "delivered")
                      (store (post_orders mouse_catalog 5 (alice [Item 1 2])
                                sample_store))))
  ∧ ∀ r, r ∈ order_items (store (put_status 9 2 (Some "delivered")
                                   (store (post_orders mouse_catalog 5
                                             (alice [Item 1 2]) sample_store)))) →
      ∃ o, orders (store (put_status 9 2 (Some "delivered")
                            (store (post_orders mouse_catalog 5 (alice [Item 1 2])
                                      sample_store)))) !! i_order_id r = Some o
           ∧ o_id o = i_order_id r.
Proof.
  assert (H : reachable (store (put_status 9 2 (Some "delivered")
                      (store (post_orders mouse_catalog 5 (alice [Item 1 2])
                                sample_store))))).
  { apply reach_put, reach_post, reach_init. }
  split; [exact H|].
  exact (proj2 (reachable_store_consistent _ H)).
Defined.

(** X24. [GET /api/orders/:id] for an id no order has: one query is sent and
    the store is unchanged; the answer is 404 "Order not found" when the id
    is in the [INTEGER] range, and 500 "Failed to fetch order" when it is
    beyond it. *)
Theorem get_order_unknown_order id db :
  orders db !! id = None →
  get_order id db
    = Outcome
        (Some (if decide (int4_range id)
               then Response 404 (Error "Order not found")
               else Response 500 (Error "Failed to fetch order")))
        db [SelectOrder id].
Proof. intros Hid. unfold get_order. rewrite Hid. by case_decide. Qed.

Lemma get_order_unknown_order_witness :
  orders sample_store !! 99 = None ∧ orders sample_store !! 2147483648 = None
  ∧ reply (get_order 99 sample_store) = Some (Response 404 (Error "Order not found"))
  ∧ reply (get_order 2147483648 sample_store)
    = Some (Response 500 (Error "Failed to fetch order")).
Proof.
  assert (H1 : orders sample_store !! 99 = None) by reflexivity.
  assert (H2 : orders sample_store !! 2147483648 = None) by reflexivity.
  split_and!; [exact H1|exact H2| |].
  - exact (f_equal reply (get_order_unknown_order 99 sample_store H1)).
  - exact (f_equal reply (get_order_unknown_order 2147483648 sample_store H2)).
Defined.




(** * The product service *)

Lemma substring_length_le n : ∀ s, (String.length (String.substring 0 n s) ≤ n)%nat.
Proof.
  induction n as [|n IH]; intros [|c s]; cbn; try lia.
  specialize (IH s). lia.
Qed.

Lemma varchar_length n s s' : varchar n s = Some s' → (String.length s' ≤ n)%nat.
Proof.
  unfold varchar. case_decide; [by intros [= <-]|].
  case_match; [|done]. intros [= <-]. apply substring_length_le.
Qed.

Lemma price_cents_range q c : price_cents q = Some c → numeric_10_2_range c.
Proof.
  unfold price_cents, numeric_10_2_of_number. destruct (RN q); [|done..].
  case_decide; [|done]. by intros [= <-].
Qed.

(** X11. [initDatabase] of the product service never inserts its sample
    products: the counting query always returns one row, so its [rowCount] is
    never 0, and the store is left as it is, empty or not. *)
Theorem product_init_database_inserts_nothing now db :
  product_init_database now db = db
  ∧ products (product_init_database now empty_product_database) = ∅.
Proof. unfold product_init_database. by rewrite !decide_False. Qed.

Lemma product_wf_empty : product_wf empty_product_database.
Proof. split; [done|]. intros id r. cbn. by rewrite lookup_empty. Qed.

Lemma insert_product_Some now name description price stock category image_url db db' row :
  insert_product now name description price stock category image_url db = (db', Some row) →
  ∃ name' price' stock' category',
    varchar 255 name = Some name' ∧ price_cents price = Some price'
    ∧ int4_of_js (RN stock) = Some stock' ∧ varchar_opt 100 category = Some category'
    ∧ int4_range (products_id_seq db)
    ∧ products db !! products_id_seq db = None
    ∧ row = ProductRow (products_id_seq db) name' description price' stock' category'
                       image_url now now
    ∧ db' = ProductDatabase (<[products_id_seq db := row]> (products db))
                            (products_id_seq db + 1).
Proof.
  unfold insert_product.
  destruct (int4_of_js (RN stock)) as [stock'|]; [|done].
  destruct (varchar 255 name) as [name'|]; [|done].
  destruct (price_cents price) as [price'|]; [|done].
  destruct (varchar_opt 100 category) as [category'|]; [|done].
  destruct (decide (int4_range (products_id_seq db))); [|done].
  destruct (products db !! products_id_seq db) eqn:Hfree; [done|].
  intros [= <- <-]. by exists name', price', stock', category'.
Qed.

Lemma insert_product_None now name description price stock category image_url db db' :
  insert_product now name description price stock category image_url db = (db', None) →
  products db' = products db ∧ products_id_seq db ≤ products_id_seq db'.
Proof.
  unfold insert_product. intros H.
  repeat case_match; simplify_eq; cbn; split; (done || lia).
Qed.

Lemma product_wf_create now input db :
  product_wf db → product_wf (create_product now input db).2.
Proof.
  intros [Hseq Hrows]. unfold create_product.
  destruct (negb (truthy (in_name input)) || negb (truthy_number (in_price input)));
    [done|].
  destruct (insert_product now _ _ _ _ _ _ db) as [db' [row|]] eqn:Hins; cbn.
  - apply insert_product_Some in Hins
      as (name' & price' & stock' & category' & Hn & Hp & _ & _ & Hr & Hfree & -> & ->).
    split; cbn; [lia|]. intros id r.
    destruct (decide (id = products_id_seq db)) as [->|Hne].
    + rewrite lookup_insert_eq. intros [= <-]. cbn. split_and!; [done|lia|].
      split_and!; cbn; [done|by eapply varchar_length|by eapply price_cents_range].
    + rewrite lookup_insert_ne by done. intros H.
      destruct (Hrows id r H) as (? & ? & ?). split_and!; [done|lia|done].
  - apply insert_product_None in Hins as [E L]. split; [lia|]. rewrite E.
    intros id r H. destruct (Hrows id r H) as (? & ? & ?). split_and!; [done|lia|done].
Qed.

(** The row a successful update writes, and the row it replaces. *)
Lemma update_product_200 now id input db row db' :
  update_product now id input db = (ProductResponse 200 (ProductData row), db') →
  ∃ r name' price' stock' category',
    products db !! id = Some r
    ∧ varchar_opt 255 (in_name input) = Some name'
    ∧ from_option (λ q, Some <$> price_cents q) (Some None) (in_price input) = Some price'
    ∧ from_option (λ q, Some <$> int4_of_js (RN q)) (Some None) (in_stock input)
      = Some stock'
    ∧ varchar_opt 100 (in_category input) = Some category'
    ∧ row = ProductRow (pr_id r) (default (pr_name r) name')
                       (coalesce (in_description input) (pr_description r))
                       (default (pr_price r) price') (default (pr_stock r) stock')
                       (coalesce category' (pr_category r))
                       (coalesce (in_image_url input) (pr_image_url r))
                       (pr_created_at r) now
    ∧ db' = ProductDatabase (<[id := row]> (products db)) (products_id_seq db).
Proof.
  unfold update_product, int4_of_Z.
  destruct (decide (int4_range id)); [|done].
  destruct (from_option _ _ (in_stock input)) as [stock'|] eqn:Hs; [|done].
  destruct (varchar_opt 255 (in_name input)) as [name'|] eqn:Hn; [|done].
  destruct (from_option _ _ (in_price input)) as [price'|] eqn:Hp; [|done].
  destruct (varchar_opt 100 (in_category input)) as [category'|] eqn:Hc; [|done].
  destruct (products db !! id) as [r|] eqn:Hid; [|done].
  intros [= <- <-]. by exists r, name', price', stock', category'.
Qed.

Lemma update_product_other now id input db :
  (∀ row, (update_product now id input db).1 ≠ ProductResponse 200 (ProductData row)) →
  (update_product now id input db).2 = db.
Proof.
  unfold update_product. intros H.
  repeat case_match; try done. exfalso. by eapply H.
Qed.

Lemma product_wf_update now id input db :
  product_wf db → product_wf (update_product now id input db).2.
Proof.
  intros [Hseq Hrows].
  pose proof (update_product_other now id input db) as Hoth.
  destruct (update_product now id input db) as [resp db'] eqn:Hup. cbn in *.
  destruct resp as [st [row|msg|msg]].
  2,3: rewrite Hoth; [done|congruence].
  destruct (decide (st = 200)) as [->|Hne].
  2: { rewrite Hoth; [done|congruence]. }
  clear Hoth.
  apply update_product_200 in Hup
    as (r & name' & price' & stock' & category' & Hid & Hn & Hp & _ & _ & -> & ->).
  destruct (Hrows id r Hid) as (Eid & Hlt & (Hr & Hlen & Hpr)).
  split; cbn; [done|]. intros id' r'.
  destruct (decide (id' = id)) as [->|Hne].
  - rewrite lookup_insert_eq. intros [= <-]. cbn. split_and!; [done..|].
    split_and!; cbn; [done| |].
    + destruct (in_name input) as [nm|]; cbn in Hn.
      * destruct (varchar 255 nm) as [nm'|] eqn:Hv; [|done]. injection Hn as <-.
        cbn. by eapply varchar_length.
      * by injection Hn as <-.
    + destruct (in_price input) as [q|]; cbn in Hp.
      * destruct (price_cents q) as [c|] eqn:Hc; [|done]. injection Hp as <-.
        cbn. by eapply price_cents_range.
      * by injection Hp as <-.
  - rewrite lookup_insert_ne by done. apply Hrows.
Qed.

Lemma product_wf_delete id db :
  product_wf db → product_wf (delete_product id db).2.
Proof.
  intros [Hseq Hrows]. unfold delete_product.
  case_decide; [|done]. destruct (products db !! id) eqn:Hid; [|done].
  split; cbn; [done|]. intros id' r' Hdel.
  apply lookup_delete_Some in Hdel as [_ Hdel]. by apply Hrows.
Qed.

Lemma product_reachable_wf db : product_reachable db → product_wf db.
Proof.
  induction 1.
  - unfold product_init_database. rewrite decide_False by done.
    apply product_wf_empty.
  - unfold product_init_database. by rewrite decide_False.
  - by apply product_wf_create.
  - by apply product_wf_update.
  - by apply product_wf_delete.
Qed.


Lemma mouse_store_reachable : product_reachable mouse_store.
Proof. apply preach_create, preach_init with (now := 0). Qed.

Lemma mouse_store_holds :
  products mouse_store !! 1
  = Some (ProductRow 1 "Wireless Mouse" None 2999 200 (Some "Accessories") None 1 1).
Proof. vm_compute. reflexivity. Qed.

Lemma mouse_store_lacks : products mouse_store !! 9999 = None.
Proof. vm_compute. reflexivity. Qed.


Lemma product_lookup_found pdb n it r :
  product_wf pdb → products pdb !! product_id it = Some r →
  resolves_to (product_service_catalog pdb) n it (product_of_row r)
  ∧ catalog_product (product_of_row r).
Proof.
  intros [_ Hrows] Hid. destruct (Hrows _ _ Hid) as (E & _ & Hcat).
  split; [|done]. unfold resolves_to, lookup, product_service_catalog, get_product.
  destruct Hcat as (Hr & _). cbn in Hr. rewrite E in Hr.
  rewrite decide_True by done. rewrite Hid. cbn. by rewrite decide_True by lia.
Qed.

Lemma product_lookup_missing pdb n it :
  products pdb !! product_id it = None →
  fails (product_service_catalog pdb) n it.
Proof.
  intros Hid. unfold fails, lookup, product_service_catalog, get_product.
  case_decide.
  - rewrite Hid. cbn. rewrite decide_False by lia. by eexists.
  - cbn. rewrite decide_False by lia. by eexists.
Qed.

(** X13. Seen from the order service, a lookup answered by the product
    service resolves to the stored product when the id is that of a stored
    product and rejects otherwise (404, or 500 for an id outside the
    [INTEGER] range); it is never a 2xx answer with [success] false, and it
    always settles. *)
Theorem product_service_lookup pdb n it :
  product_reachable pdb →
  (∀ r, products pdb !! product_id it = Some r →
     resolves_to (product_service_catalog pdb) n it (product_of_row r))
  ∧ (products pdb !! product_id it = None → fails (product_service_catalog pdb) n it)
  ∧ ¬ declined (product_service_catalog pdb) n it
  ∧ lookup (product_service_catalog pdb) n it ≠ None.
Proof.
  intros Hwf%product_reachable_wf. split_and!.
  - intros r Hid. by apply product_lookup_found.
  - apply product_lookup_missing.
  - intros [d Hd]. destruct (products pdb !! product_id it) as [r|] eqn:Hid.
    + destruct (product_lookup_found pdb n it r Hwf Hid) as [Hres _].
      unfold resolves_to in Hres. by rewrite Hres in Hd.
    + destruct (product_lookup_missing pdb n it Hid) as [e He]. by rewrite He in Hd.
  - destruct (products pdb !! product_id it) as [r|] eqn:Hid.
    + destruct (product_lookup_found pdb n it r Hwf Hid) as [Hres _].
      unfold resolves_to in Hres. by rewrite Hres.
    + destruct (product_lookup_missing pdb n it Hid) as [e He]. by rewrite He.
Qed.

Lemma product_service_lookup_witness :
  product_reachable mouse_store
  ∧ resolves_to (product_service_catalog mouse_store) 0 (Item 1 2)
      (Product 1 "Wireless Mouse" 2999)
  ∧ fails (product_service_catalog mouse_store) 0 (Item 9999 1).
Proof.
  assert (H : product_reachable mouse_store) by exact mouse_store_reachable.
  split_and!; [exact H| |].
  - exact (proj1 (product_service_lookup mouse_store 0 (Item 1 2) H) _ mouse_store_holds).
  - exact (proj1 (proj2 (product_service_lookup mouse_store 0 (Item 9999 1) H))
             mouse_store_lacks).
Defined.

(** X14. With the product service as the catalog, a creation request that
    passes validation and names a product id the product store does not
    hold, the ids before it being held, is answered 400
    "Product <id> not found" for that id, and the order store is unchanged. *)
Theorem post_orders_product_missing pdb now req db pre it post :
  product_reachable pdb →
  valid_request req → items req = Some (pre ++ it :: post) →
  (∀ j, j ∈ pre → is_Some (products pdb !! product_id j)) →
  products pdb !! product_id it = None →
  reply (post_orders (product_service_catalog pdb) now req db) =
    Some (Response 400 (Error ("Product " +:+ pretty (product_id it) +:+ " not found")))
  ∧ store (post_orders (product_service_catalog pdb) now req db) = db.
Proof.
  intros Hwf%product_reachable_wf Hvalid Hits Hpre Hmiss. unfold post_orders.
  apply valid_request_iff in Hvalid. rewrite Hvalid, Hits.
  change (default [] (Some (pre ++ it :: post))) with (pre ++ it :: post).
  rewrite (verify_products_caught _ pre it post 0); [done| |].
  - intros k j Hk. destruct (Hpre j) as [r Hr].
    { apply list_elem_of_lookup. by exists k. }
    left. exists (product_of_row r). by apply product_lookup_found.
  - left. by apply product_lookup_missing.
Qed.

Lemma post_orders_product_missing_witness :
  product_reachable mouse_store
  ∧ valid_request (alice [Item 1 2; Item 9999 1])
  ∧ items (alice [Item 1 2; Item 9999 1]) = Some ([Item 1 2] ++ Item 9999 1 :: [])
  ∧ (∀ j, j ∈ [Item 1 2] → is_Some (products mouse_store !! product_id j))
  ∧ products mouse_store !! 9999 = None
  ∧ reply (post_orders (product_service_catalog mouse_store) 5
             (alice [Item 1 2; Item 9999 1]) sample_store)
    = Some (Response 400 (Error "Product 9999 not found")).
Proof.
  assert (H1 : product_reachable mouse_store) by exact mouse_store_reachable.
  assert (H2 : valid_request (alice [Item 1 2; Item 9999 1])) by done.
  assert (H3 : items (alice [Item 1 2; Item 9999 1])
               = Some ([Item 1 2] ++ Item 9999 1 :: [])) by reflexivity.
  assert (H4 : ∀ j, j ∈ [Item 1 2] → is_Some (products mouse_store !! product_id j)).
  { intros j ->%list_elem_of_singleton. eexists. exact mouse_store_holds. }
  assert (H5 : products mouse_store !! product_id (Item 9999 1) = None)
    by exact mouse_store_lacks.
  split_and!; [exact H1|exact H2|exact H3|exact H4|exact H5|].
  exact (proj1 (post_orders_product_missing mouse_store 5 _ sample_store
                  [Item 1 2] (Item 9999 1) [] H1 H2 H3 H4 H5)).
Defined.



(** X16. [POST /api/products] refuses a product without a name, with an
    empty name, without a price, or with a price of 0 (which is falsy): it
    answers 400 "Name and price are required" and the store is unchanged. *)
Theorem create_product_requires_name_and_price now input db :
  missing_or_empty (in_name input) ∨ in_price input = None
  ∨ (∃ q, in_price input = Some q ∧ (q == 0)%Q) →
  create_product now input db
    = (ProductResponse 400 (ProductError "Name and price are required"), db).
Proof.
  intros H. unfold create_product.
  assert (negb (truthy (in_name input)) || negb (truthy_number (in_price input)) = true)
    as ->; [|done].
  destruct H as [[->| ->]|[->|(q & -> & Hq)]]; cbn; rewrite ?orb_true_r; try done.
  by rewrite (RN_comp _ _ Hq), orb_true_r.
Qed.

Lemma create_product_requires_name_and_price_witness :
  (missing_or_empty (in_name (ProductInput (Some "Gift") None (Some 0%Q) None None None))
   ∨ in_price (ProductInput (Some "Gift") None (Some 0%Q) None None None) = None
   ∨ (∃ q, in_price (ProductInput (Some "Gift") None (Some 0%Q) None None None) = Some q
           ∧ (q == 0)%Q))
  ∧ (create_product 3 (ProductInput (Some "Gift") None (Some 0%Q) None None None)
       mouse_store).2 = mouse_store.
Proof.
  assert (H : missing_or_empty
                (in_name (ProductInput (Some "Gift") None (Some 0%Q) None None None))
    ∨ in_price (ProductInput (Some "Gift") None (Some 0%Q) None None None) = None
    ∨ (∃ q, in_price (ProductInput (Some "Gift") None (Some 0%Q) None None None) = Some q
            ∧ (q == 0)%Q)).
  { right. right. exists 0%Q. split; reflexivity. }
  split; [exact H|].
  exact (f_equal snd (create_product_requires_name_and_price 3 _ mouse_store H)).
Defined.

(** X17. A product that [POST /api/products] has answered with 201 has an id
    no product had, is what [GET /api/products/:id] returns for that id
    afterwards, and leaves what is returned for every other id unchanged; its
    stock is 0 when none was sent, and both its timestamps are the time of
    the request. *)
Theorem create_product_then_get now input db row db' :
  create_product now input db = (ProductResponse 201 (ProductData row), db') →
  products db !! pr_id row = None
  ∧ get_product (pr_id row) db' = ProductResponse 200 (ProductData row)
  ∧ (∀ id, id ≠ pr_id row → get_product id db' = get_product id db)
  ∧ (in_stock input = None → pr_stock row = 0)
  ∧ pr_created_at row = now ∧ pr_updated_at row = now.
Proof.
  unfold create_product.
  destruct (negb (truthy (in_name input)) || negb (truthy_number (in_price input)));
    [done|].
  destruct (insert_product now _ _ _ _ _ _ db) as [db1 [row1|]] eqn:Hins; [|done].
  intros [= <- <-].
  apply insert_product_Some in Hins
    as (name' & price' & stock' & category' & _ & _ & Hs & _ & Hr & Hfree & -> & ->).
  cbn. split_and!; try done.
  - unfold get_product. cbn. rewrite decide_True by done. by rewrite lookup_insert_eq.
  - intros id Hne. unfold get_product. cbn. case_decide; [|done].
    by rewrite lookup_insert_ne.
  - intros Hnone. rewrite Hnone in Hs. cbn in Hs.
    change (int4_of_js (RN 0)) with (Some 0) in Hs. by injection Hs as <-.
Qed.

Lemma create_product_then_get_witness :
  create_product 1 mouse_input empty_product_database
    = (ProductResponse 201
         (ProductData (ProductRow 1 "Wireless Mouse" None 2999 200 (Some "Accessories")
                                  None 1 1)), mouse_store)
  ∧ get_product 1 mouse_store
    = ProductResponse 200
        (ProductData (ProductRow 1 "Wireless Mouse" None 2999 200 (Some "Accessories")
                                 None 1 1)).
Proof.
  assert (H : create_product 1 mouse_input empty_product_database
    = (ProductResponse 201
         (ProductData (ProductRow 1 "Wireless Mouse" None 2999 200 (Some "Accessories")
                                  None 1 1)), mouse_store))
    by (vm_compute; reflexivity).
  split; [exact H|].
  exact (proj1 (proj2 (create_product_then_get 1 _ _ _ _ H))).
Defined.

(** X18. A product update answered 200 rewrites the one product of that id:
    its id and creation time are kept, [updated_at] is the time of the
    request, every field that was not sent keeps its value, a field that had
    a value cannot be cleared, and the other products and the sequence are
    untouched. *)
Theorem update_product_frame now id input db row db' :
  update_product now id input db = (ProductResponse 200 (ProductData row), db') →
  ∃ r,
    products db !! id = Some r
    ∧ pr_id row = pr_id r ∧ pr_created_at row = pr_created_at r
    ∧ pr_updated_at row = now
    ∧ (in_name input = None → pr_name row = pr_name r)
    ∧ (in_description input = None → pr_description row = pr_description r)
    ∧ (in_price input = None → pr_price row = pr_price r)
    ∧ (in_stock input = None → pr_stock row = pr_stock r)
    ∧ (in_category input = None → pr_category row = pr_category r)
    ∧ (in_image_url input = None → pr_image_url row = pr_image_url r)
    ∧ (is_Some (pr_description r) → is_Some (pr_description row))
    ∧ (is_Some (pr_category r) → is_Some (pr_category row))
    ∧ (is_Some (pr_image_url r) → is_Some (pr_image_url row))
    ∧ products db' !! id = Some row
    ∧ (∀ id', id' ≠ id → products db' !! id' = products db !! id')
    ∧ products_id_seq db' = products_id_seq db.
Proof.
  intros (r & name' & price' & stock' & category' & Hid & Hn & Hp & Hs & Hc & -> & ->)
    %update_product_200.
  exists r. cbn. split_and!; try done.
  - intros E. rewrite E in Hn. cbn in Hn. by injection Hn as <-.
  - by intros ->.
  - intros E. rewrite E in Hp. cbn in Hp. by injection Hp as <-.
  - intros E. rewrite E in Hs. cbn in Hs. by injection Hs as <-.
  - intros E. rewrite E in Hc. cbn in Hc. by injection Hc as <-.
  - by intros ->.
  - intros [x ->]. destruct (in_description input); by eexists.
  - intros [x ->]. destruct category'; by eexists.
  - intros [x ->]. destruct (in_image_url input); by eexists.
  - apply lookup_insert_eq.
  - intros id' Hne. by rewrite lookup_insert_ne.
Qed.

Lemma update_product_frame_witness :
  update_product 4 1 (ProductInput None None (Some (1999 # 100)%Q) None None None)
    mouse_store
  = (ProductResponse 200
       (ProductData (ProductRow 1 "Wireless Mouse" None 1999 200 (Some "Accessories")
                                None 1 4)),
     ProductDatabase
       {[ 1 := ProductRow 1 "Wireless Mouse" None 1999 200 (Some "Accessories") None 1 4 ]}
       2)
  ∧ products_id_seq (ProductDatabase
       {[ 1 := ProductRow 1 "Wireless Mouse" None 1999 200 (Some "Accessories") None 1 4 ]}
       2) = products_id_seq mouse_store.
Proof.
  assert (H : update_product 4 1
                (ProductInput None None (Some (1999 # 100)%Q) None None None) mouse_store
    = (ProductResponse 200
         (ProductData (ProductRow 1 "Wireless Mouse" None 1999 200 (Some "Accessories")
                                  None 1 4)),
       ProductDatabase
         {[ 1 := ProductRow 1 "Wireless Mouse" None 1999 200 (Some "Accessories")
                            None 1 4 ]} 2)) by (vm_compute; reflexivity).
  split; [exact H|].
  destruct (update_product_frame 4 1 _ mouse_store _ _ H) as (r & Hr).
  exact (proj2 (proj2 (proj2 (proj2 (proj2 (proj2 (proj2 (proj2 (proj2 (proj2
           (proj2 (proj2 (proj2 (proj2 (proj2 Hr))))))))))))))).
Defined.

(** X19. After a product deletion answered 200, reading the id gives 404,
    every other id reads as before, and, in a store the service can reach, a
    product created afterwards never takes the deleted id. *)
Theorem delete_product_then_get id db resp db' now input row db'' :
  product_reachable db →
  delete_product id db = (resp, db') → p_status resp = 200 →
  get_product id db' = ProductResponse 404 (ProductError "Product not found")
  ∧ (∀ id', id' ≠ id → get_product id' db' = get_product id' db)
  ∧ (create_product now input db' = (ProductResponse 201 (ProductData row), db'') →
     pr_id row ≠ id).
Proof.
  intros [_ Hrows]%product_reachable_wf. unfold delete_product.
  destruct (decide (int4_range id)) as [Hr|]; [|by intros [= <- <-]].
  destruct (products db !! id) as [r|] eqn:Hid; [|by intros [= <- <-]].
  intros [= <- <-] _. split_and!.
  - unfold get_product. cbn. rewrite decide_True by done. by rewrite lookup_delete_eq.
  - intros id' Hne. unfold get_product. cbn. case_decide; [|done].
    by rewrite lookup_delete_ne.
  - unfold create_product.
    destruct (negb (truthy (in_name input)) || negb (truthy_number (in_price input)));
      [done|].
    destruct (insert_product now _ _ _ _ _ _ _) as [db1 [row1|]] eqn:Hins; [|done].
    intros [= <- <-].
    apply insert_product_Some in Hins as (? & ? & ? & ? & _ & _ & _ & _ & _ & _ & -> & _).
    cbn. destruct (Hrows id r Hid) as (_ & ? & _). lia.
Qed.

Lemma delete_product_then_get_witness :
  product_reachable mouse_store
  ∧ delete_product 1 mouse_store
    = (ProductResponse 200 (ProductMessage "Product deleted successfully"),
       ProductDatabase ∅ 2)
  ∧ get_product 1 (ProductDatabase ∅ 2)
    = ProductResponse 404 (ProductError "Product not found").
Proof.
  assert (H1 : product_reachable mouse_store) by exact mouse_store_reachable.
  assert (H2 : delete_product 1 mouse_store
    = (ProductResponse 200 (ProductMessage "Product deleted successfully"),
       ProductDatabase ∅ 2)) by (vm_compute; reflexivity).
  split_and!; [exact H1|exact H2|].
  exact (proj1 (delete_product_then_get 1 mouse_store _ _ 0 mouse_input
                  (ProductRow 0 EmptyString None 0 0 None None 0 0) mouse_store
                  H1 H2 eq_refl)).
Defined.

(** * The gateway and the pages *)

(** X20. The gateway's [/health] always answers, whatever the two services
    do, even if neither ever replies: with 200 when both services answered
    their health check with a 2xx status, and with 503 otherwise, reporting
    each service as healthy exactly when it answered 2xx. *)
Theorem gateway_health_always_answers product_wire order_wire :
  ∃ r,
    gateway_health product_wire order_wire = Some r
    ∧ (h_product r = "healthy" ↔ ∃ s b, product_wire = Reply s b ∧ 200 ≤ s < 300)
    ∧ (h_order r = "healthy" ↔ ∃ s b, order_wire = Reply s b ∧ 200 ≤ s < 300)
    ∧ (h_status r = 200 ↔ h_product r = "healthy" ∧ h_order r = "healthy")
    ∧ (h_status r = 200 ∨ h_status r = 503).
Proof.
  assert (Hs : ∀ w, ∃ v, service_health w = Some v
                 ∧ (v = "healthy" ∨ v = "unhealthy")
                 ∧ (v = "healthy" ↔ ∃ s b, w = Reply s b ∧ 200 ≤ s < 300)).
  { intros [s b| |]; unfold service_health; cbn.
    - case_decide.
      + exists "healthy". split_and!; [done|by left|]. split; [|done]. by exists s, b.
      + exists "unhealthy". split_and!; [done|by right|]. split; [done|].
        intros (s' & b' & [= <- <-] & ?). done.
    - exists "unhealthy". split_and!; [done|by right|]. split; [done|].
      by intros (s' & b' & ? & ?).
    - exists "unhealthy". split_and!; [done|by right|]. split; [done|].
      by intros (s' & b' & ? & ?). }
  destruct (Hs product_wire) as (p & Hp & Hpv & Hpi).
  destruct (Hs order_wire) as (o & Ho & Hov & Hoi).
  unfold gateway_health. rewrite Hp, Ho. eexists. split; [reflexivity|]. cbn.
  split_and!; [done|done| |].
  - destruct Hpv as [-> | ->], Hov as [-> | ->]; cbn; split; try done; by intros [? ?].
  - destruct Hpv as [-> | ->], Hov as [-> | ->]; cbn; auto.
Qed.

Lemma clicks_on_snoc id clicks p :
  clicks_on id (clicks ++ [p])
  = (clicks_on id clicks + if decide (l_id p = id) then 1 else 0)%nat.
Proof.
  unfold clicks_on. rewrite filter_app, length_app. f_equal.
  rewrite filter_cons. case_decide; by rewrite filter_nil.
Qed.

Lemma clicks_on_le id clicks : (clicks_on id clicks ≤ length clicks)%nat.
Proof. apply length_filter. Qed.

Lemma addToCart_tracks clicks cart p :
  cart_tracks clicks cart → cart_tracks (clicks ++ [p]) (addToCart p cart).
Proof.
  intros (Hnd & Hq & Hpos & Hcov). unfold addToCart.
  destruct (List.find _ cart) as [existing|] eqn:Hfind.
  - apply List.find_some in Hfind as [Hin%list_elem_of_In Hid%bool_decide_eq_true].
    set (f := λ i, if bool_decide (c_product_id i = l_id p)
                   then CartItem (c_product_id i) (c_name i) (c_price i)
                                 (c_quantity i + 1) (c_max_stock i)
                   else i).
    assert (Hids : c_product_id <$> (f <$> cart) = c_product_id <$> cart).
    { rewrite <- list_fmap_compose. apply list_fmap_ext. intros _ i _. cbn.
      unfold f. by case_bool_decide. }
    split_and!.
    + by rewrite Hids.
    + intros i' (i & -> & Hi)%list_elem_of_fmap. unfold f.
      case_bool_decide as E; cbn; rewrite clicks_on_snoc, (Hq i Hi).
      * rewrite decide_True by done. lia.
      * rewrite decide_False by done. lia.
    + intros i' (i & -> & Hi)%list_elem_of_fmap. rewrite clicks_on_snoc.
      assert (c_product_id (f i) = c_product_id i) as ->
        by (unfold f; by case_bool_decide).
      specialize (Hpos i Hi). lia.
    + rewrite Hids. intros p' [Hp'|Hp'%list_elem_of_singleton]%elem_of_app.
      * by apply Hcov.
      * subst p'. rewrite <- Hid. by apply list_elem_of_fmap_2.
  - assert (Hnew : ∀ i, i ∈ cart → c_product_id i ≠ l_id p).
    { intros i Hi%list_elem_of_In. apply (List.find_none _ _ Hfind) in Hi.
      by apply bool_decide_eq_false in Hi. }
    assert (Hzero : clicks_on (l_id p) clicks = 0%nat).
    { destruct (clicks_on (l_id p) clicks) eqn:E; [done|]. exfalso.
      unfold clicks_on in E.
      destruct (filter (λ p0, l_id p0 = l_id p) clicks) as [|p' l] eqn:Hf; [done|].
      assert (Hp' : p' ∈ filter (λ p0, l_id p0 = l_id p) clicks)
        by (rewrite Hf; left).
      apply list_elem_of_filter in Hp' as [Heq Hp'].
      apply Hcov in Hp'. apply list_elem_of_fmap in Hp' as (i & Hi & Hin).
      apply (Hnew i Hin). congruence. }
    split_and!.
    + rewrite fmap_app. apply NoDup_app. split_and!; [done| |by apply NoDup_singleton].
      intros x (i & -> & Hi)%list_elem_of_fmap Hx. cbn in Hx.
      apply list_elem_of_singleton in Hx. by apply (Hnew i Hi).
    + intros i [Hi|Hi%list_elem_of_singleton]%elem_of_app; rewrite clicks_on_snoc.
      * rewrite (Hq i Hi), decide_False; [lia|]. intros E. by apply (Hnew i Hi).
      * subst i. cbn. rewrite Hzero, decide_True by done. lia.
    + intros i [Hi|Hi%list_elem_of_singleton]%elem_of_app; rewrite clicks_on_snoc.
      * specialize (Hpos i Hi). lia.
      * subst i. cbn. rewrite decide_True by done. lia.
    + rewrite fmap_app. intros p' [Hp'|Hp'%list_elem_of_singleton]%elem_of_app.
      * apply elem_of_app. left. by apply Hcov.
      * subst p'. apply elem_of_app. right. cbn. left.
Qed.

Lemma cart_after_tracks clicks : cart_tracks clicks (cart_after clicks).
Proof.
  induction clicks as [|p clicks IH] using rev_ind.
  - split_and!; [constructor|by intros ? ?%elem_of_nil..].
  - unfold cart_after in *. rewrite foldl_app. cbn. by apply addToCart_tracks.
Qed.

(** X21. Whatever products are added to the cart of the order form, in
    whatever order, the cart holds one line per distinct product added, and
    the quantity of a line is the number of times that product was added;
    the stock recorded in [max_stock] puts no bound on it. *)
Theorem cart_after_counts_clicks clicks :
  NoDup (c_product_id <$> cart_after clicks)
  ∧ (∀ i, i ∈ cart_after clicks →
       c_quantity i = Z.of_nat (clicks_on (c_product_id i) clicks)
       ∧ 1 ≤ c_quantity i)
  ∧ (∀ p, p ∈ clicks →
       ∃ i, i ∈ cart_after clicks ∧ c_product_id i = l_id p).
Proof.
  destruct (cart_after_tracks clicks) as (Hnd & Hq & Hpos & Hcov).
  split_and!; [done| |].
  - intros i Hi. split; [by apply Hq|]. rewrite (Hq i Hi). specialize (Hpos i Hi). lia.
  - intros p Hp. apply Hcov, list_elem_of_fmap in Hp as (i & Hi & Hin). by exists i.
Qed.

(** A product with one piece in stock, added three times. *)
Example cart_beyond_stock :
  cart_after [ListedProduct 1 "Wireless Mouse" 2999 1;
              ListedProduct 1 "Wireless Mouse" 2999 1;
              ListedProduct 1 "Wireless Mouse" 2999 1]
  = [CartItem 1 "Wireless Mouse" 2999 3 1].
Proof. reflexivity. Qed.

(** X22. The request the order form posts after a non-empty sequence of
    additions, with a name and an email filled in, passes the order service's
    validation; its items name distinct products and every quantity is an
    integer between 1 and the number of additions. *)
Theorem submit_request_well_formed customerName customerEmail clicks :
  customerName ≠ EmptyString → customerEmail ≠ EmptyString → clicks ≠ [] →
  valid_request (submit_request customerName customerEmail (cart_after clicks))
  ∧ ∃ its,
      items (submit_request customerName customerEmail (cart_after clicks)) = Some its
      ∧ NoDup (product_id <$> its)
      ∧ Forall (λ it, ∃ z, quantity it = inject_Z z
                           ∧ 1 ≤ z ≤ Z.of_nat (length clicks)) its.
Proof.
  intros Hn He Hc.
  destruct (cart_after_tracks clicks) as (Hnd & Hq & Hpos & Hcov).
  assert (Hne : cart_after clicks ≠ []).
  { destruct clicks as [|p clicks]; [done|].
    assert (Hp : p ∈ p :: clicks) by left.
    apply Hcov in Hp. intros E. rewrite E in Hp. by apply elem_of_nil in Hp. }
  split.
  - unfold valid_request, submit_request. cbn. rewrite !bool_decide_false by done.
    split_and!; [done..|]. destruct (cart_after clicks); [done|].
    by rewrite bool_decide_false.
  - eexists. split; [reflexivity|]. split.
    + rewrite <- list_fmap_compose.
      assert (product_id ∘ (λ i, Item (c_product_id i) (inject_Z (c_quantity i)))
                <$> cart_after clicks = c_product_id <$> cart_after clicks) as ->; [|done].
      by apply list_fmap_ext.
    + apply Forall_fmap, Forall_forall. intros i Hi. cbn.
      exists (c_quantity i). split; [done|]. rewrite (Hq i Hi).
      specialize (Hpos i Hi). pose proof (clicks_on_le (c_product_id i) clicks). lia.
Qed.

Lemma submit_request_well_formed_witness :
  "Alice" ≠ EmptyString ∧ "alice@example.com" ≠ EmptyString
  ∧ [ListedProduct 1 "Wireless Mouse" 2999 1; ListedProduct 1 "Wireless Mouse" 2999 1]
    ≠ []
  ∧ submit_request "Alice" "alice@example.com"
      (cart_after [ListedProduct 1 "Wireless Mouse" 2999 1;
                   ListedProduct 1 "Wireless Mouse" 2999 1])
    = CreateRequest (Some "Alice") (Some "alice@example.com")
                    (Some [Item 1 (inject_Z 2)])
  ∧ valid_request (submit_request "Alice" "alice@example.com"
      (cart_after [ListedProduct 1 "Wireless Mouse" 2999 1;
                   ListedProduct 1 "Wireless Mouse" 2999 1])).
Proof.
  assert (H1 : "Alice" ≠ EmptyString) by discriminate.
  assert (H2 : "alice@example.com" ≠ EmptyString) by discriminate.
  assert (H3 : [ListedProduct 1 "Wireless Mouse" 2999 1;
                ListedProduct 1 "Wireless Mouse" 2999 1] ≠ []) by discriminate.
  split_and!; [exact H1|exact H2|exact H3|reflexivity|].
  exact (proj1 (submit_request_well_formed "Alice" "alice@example.com" _ H1 H2 H3)).
Defined.

(** X23. Every status the orders page has a button for passes the order
    service's status validation, so pressing it is never answered 400: the
    answer is 200 when the order exists and, when it does not, 404 for an id
    in the [INTEGER] range and 500 for an id beyond it. *)
Theorem status_buttons_accepted now id s db :
  s ∈ status_buttons →
  status <$> reply (put_status now id (Some s) db)
    = Some (match orders db !! id with
            | Some _ => 200
            | None => if decide (int4_range id) then 404 else 500
            end).
Proof.
  intros Hs. change status_buttons with validStatuses in Hs.
  destruct (orders db !! id) as [o|] eqn:Hid.
  - by rewrite (put_status_existing now id s o db Hs Hid).
  - unfold put_status. rewrite (valid_status_truthy _ Hs).
    change (default EmptyString (Some s)) with s.
    rewrite bool_decide_true by done. cbn [negb orb].
    unfold update_status. rewrite Hid. by case_decide.
Qed.

Lemma status_buttons_accepted_witness :
  "cancelled" ∈ status_buttons
  ∧ status <$> reply (put_status 5 2 (Some "cancelled") sample_store) = Some 200
  ∧ status <$> reply (put_status 5 99 (Some "cancelled") sample_store) = Some 404
  ∧ status <$> reply (put_status 5 (-2147483649) (Some "cancelled") sample_store)
    = Some 500.
Proof.
  assert (H : "cancelled" ∈ status_buttons) by (unfold status_buttons; valid_status).
  split_and!; [exact H| | |].
  - exact (status_buttons_accepted 5 2 "cancelled" sample_store H).
  - exact (status_buttons_accepted 5 99 "cancelled" sample_store H).
  - exact (status_buttons_accepted 5 (-2147483649) "cancelled" sample_store H).
Defined.
